(** * zep-go: the legacy client (src/main.go) and the generated search client
    (src/unnamed/part_000), embedded in Rocq.

    Go values are modelled as follows.
    - [string] is a byte string; [int] is [Z]; [uint] is [nat].
    - A pointer is an [option loc]: [None] is [nil]; the objects pointers and
      maps refer to live in the [heap] of the program state, so that aliasing
      and in-place mutation are visible.
    - A call that ends in a run-time panic (a nil dereference) yields
      [Panicked]; the state reached so far is kept.
    - The network, the standard library's validation functions and the
      third-party packages are parameters, gathered in type classes. *)

From Stdlib Require Import ZArith String Ascii List Lia DecimalString.
From stdpp Require Import base option gmap strings.

Open Scope string_scope.
Open Scope list_scope.

(** ** Package strings and fmt *)

(** strings.HasSuffix: [len(s) >= len(suffix) && s[len(s)-len(suffix):] == suffix]. *)
Definition HasSuffix (s suffix : string) : bool :=
  (String.length suffix <=? String.length s)%nat
  && String.eqb (substring (String.length s - String.length suffix) (String.length suffix) s) suffix.

(** strings.TrimSuffix: [s[:len(s)-len(suffix)]] when [s] ends with [suffix], else [s]. *)
Definition TrimSuffix (s suffix : string) : string :=
  if HasSuffix s suffix
  then substring 0 (String.length s - String.length suffix) s
  else s.

(** strings.Join *)
Definition Join (elems : list string) (sep : string) : string := String.concat sep elems.

(** The verb %d of fmt.Sprintf on an int. *)
Definition itoa (n : Z) : string := NilZero.string_of_int (Z.to_int n).

(** An error value made by a package outside the repository (net/http, io,
    encoding/json, semver): the program only ever reads its Error() text. *)
Record lib_error := errorString { Error : string }.

(** ** Package net/http *)

(** http.Header is a map[string][]string. *)
Abbreviation Header := (gmap string (list string)).

(** An http.Request that is not nil and has its URL set, as http.NewRequest
    makes them. *)
Record Request := mkRequest {
  Method : string;
  URL : string;
  ReqHeader : Header;
  ReqBody : option string
}.

(** [Body] is what io.ReadAll gives on the response body. *)
Record Response := mkResponse {
  StatusCode : Z;
  RespHeader : Header;
  Body : lib_error + string
}.

(** What the program cannot see into: what an http.Client does on the
    network, and the standard library's own checks. [RoundTrip c req w] is
    the whole of one call c.Do(req) in the world [w], as the caller sees it:
    the response Client.Do returns, which is the final one when redirects
    were followed inside the call, or the error Client.Do returns, which is
    the *url.Error it wraps a failure in; and the world after the call. *)
Class HTTP := {
  World : Type;
  HttpClient : Type;
  clientWithTimeout : Z -> HttpClient;
  RoundTrip : HttpClient -> Request -> World -> (lib_error + Response) * World;
  CanonicalMIMEHeaderKey : string -> string;
  NewRequest_rejects : string -> string -> option lib_error
}.

Section NetHTTP.
Context {http : HTTP}.

(** Header.Add appends to the values stored under the canonical key. *)
Definition Header_Add (h : Header) (key value : string) : Header :=
  let k := CanonicalMIMEHeaderKey key in
  <[k := default [] (h !! k) ++ [value]]> h.

(** Header.Get: the first value under the canonical key, or the empty string. *)
Definition Header_Get (h : Header) (key : string) : string :=
  match h !! CanonicalMIMEHeaderKey key with
  | Some (v :: _) => v
  | _ => ""
  end.

(** http.NewRequest(method, url, body) *)
Definition NewRequest (method url : string) (body : option string) : lib_error + Request :=
  match NewRequest_rejects method url with
  | Some err => inl err
  | None => inr {| Method := method; URL := url; ReqHeader := ∅; ReqBody := body |}
  end.

End NetHTTP.

(** ** Program state and the monad of effects *)

Definition loc := positive.

(** [trace] records every call of Client.Do, the request passed and what the
    call returned, in order; [stdout] records the arguments of fmt.Println,
    in order. *)
Record State {http : HTTP} (Obj Out : Type) := mkState {
  world : World;
  trace : list (Request * (lib_error + Response));
  stdout : list Out;
  heap : gmap loc Obj
}.
Arguments mkState {http Obj Out}.
Arguments world {http Obj Out}.
Arguments trace {http Obj Out}.
Arguments stdout {http Obj Out}.
Arguments heap {http Obj Out}.

Inductive outcome (A : Type) : Type :=
| Returned (a : A)
| Panicked.
Arguments Returned {A}.
Arguments Panicked {A}.

Section Monad.
Context {http : HTTP} {Obj Out : Type}.

Definition M (A : Type) : Type := State Obj Out -> outcome A * State Obj Out.

Definition ret {A} (a : A) : M A := fun st => (Returned a, st).

Definition bind {A B} (m : M A) (k : A -> M B) : M B :=
  fun st =>
    match m st with
    | (Returned a, st') => k a st'
    | (Panicked, st') => (Panicked, st')
    end.

Definition panic {A} : M A := fun st => (Panicked, st).

(** [*p] *)
Definition deref (p : option loc) : M Obj :=
  fun st =>
    match p with
    | Some l => match heap st !! l with
                | Some o => (Returned o, st)
                | None => (Panicked, st)
                end
    | None => (Panicked, st)
    end.

(** [&T{...}], [make(...)]: a new object at an unused location. *)
Definition alloc (o : Obj) : M loc :=
  fun st =>
    let l := fresh (dom (heap st)) in
    (Returned l, mkState (world st) (trace st) (stdout st) (<[l := o]> (heap st))).

(** Writing through a reference. *)
Definition store (l : loc) (o : Obj) : M unit :=
  fun st =>
    match heap st !! l with
    | Some _ => (Returned tt, mkState (world st) (trace st) (stdout st) (<[l := o]> (heap st)))
    | None => (Panicked, st)
    end.

(** fmt.Println(x) *)
Definition Println (x : Out) : M unit :=
  fun st => (Returned tt, mkState (world st) (trace st) (stdout st ++ [x]) (heap st)).

(** client.Do(req), for a request that is not nil: on a nil client the call
    panics; otherwise it is one call of Client.Do, answered by the world and
    recorded. *)
Definition Do (client : option HttpClient) (req : Request) : M (lib_error + Response) :=
  fun st =>
    match client with
    | None => (Panicked, st)
    | Some c =>
        let (r, w) := RoundTrip c req (world st) in
        (Returned r, mkState w (trace st ++ [(req, r)]) (stdout st) (heap st))
    end.

End Monad.

Notation "x <- m ;; k" := (bind m (fun x => k))
  (at level 100, m at next level, right associativity).
Notation "m ;;; k" := (bind m (fun _ => k))
  (at level 100, right associativity).

(** ** The legacy client: src/main.go *)

Module Legacy.

Definition APIBasePath := "/api/v1".
Definition ServerErrorMessage :=
  "Failed to connect to Zep server. Please check that the server is running, the API URL is correct, and no other process is using the same port".
Definition MinServerVersion := "0.16.0".
Definition MinServerWarningMsg :=
  "You are using an incompatible Zep server version. Please upgrade to " +:+ MinServerVersion +:+ " or later.".
Definition DefaultRequestTimeout : Z := 30.
(** time.Second, in nanoseconds *)
Definition Second : Z := 1000000000.

(** The error values of the program: the zep package's typed errors as the
    composite literals of main.go build them, and the errors handed through
    from libraries. *)
Inductive error : Type :=
| External (err : lib_error)
| ZepError (Message : string)
| NotFoundError (Message : string)
| AuthenticationError (Message : string)
| APIError (Message : string).

(** What fmt.Println is given. *)
Inductive printed : Type :=
| PrintString (s : string)
| PrintError (err : error).

(** github.com/Masterminds/semver/v3, as far as main.go uses it. *)
Class Semver := {
  Version : Type;
  Constraints : Type;
  NewConstraint : string -> lib_error + Constraints;
  NewVersion : string -> lib_error + Version;
  Check : Constraints -> Version -> bool
}.

Section Client.
Context {http : HTTP} {semver : Semver}.

Record DefaultZepClient := mkClient {
  ServerURL : string;
  Headers : gmap string string;
  Client : option HttpClient
}.

Abbreviation M := (@M http DefaultZepClient printed).

Definition isVersionGreaterOrEqual (version : string) : bool * option error :=
  match NewConstraint (">= " +:+ MinServerVersion) with
  | inl err => (false, Some (External err))
  | inr c =>
      match NewVersion version with
      | inl err => (false, Some (External err))
      | inr currentVersion => (Check c currentVersion, None)
      end
  end.

Definition joinPaths (paths : list string) : string := Join paths "/".

(** GetFullURL *)
Definition GetFullURL (z : option loc) (endpoint : string) : M string :=
  c <- deref z ;;
  ret (joinPaths [ServerURL c; APIBasePath; endpoint]).

(** The loop [for key, value := range z.Headers { req.Header.Add(key, value) }].
    Go leaves the order of a map range open; it only shows in the order of
    the values of two keys with one canonical form. *)
Definition addHeaders (hs : gmap string string) (req : Request) : Request :=
  {| Method := Method req; URL := URL req;
     ReqHeader := map_fold (fun key value h => Header_Add h key value) (ReqHeader req) hs;
     ReqBody := ReqBody req |}.

(** CheckServer *)
Definition CheckServer (z : option loc) : M (option error) :=
  c <- deref z ;;
  let healthCheck := "/healthz" in
  let healthCheckURL := ServerURL c +:+ healthCheck in
  match NewRequest "GET" healthCheckURL None with
  | inl err => ret (Some (External err))
  | inr req =>
      let req := addHeaders (Headers c) req in
      r <- Do (Client c) req ;;
      match r with
      | inl err => ret (Some (External err))
      | inr resp =>
          let zepServerVersion := Header_Get (RespHeader resp) "X-Zep-Version" in
          match isVersionGreaterOrEqual zepServerVersion with
          | (_, Some err) => ret (Some err)
          | (meetsMinVersion, None) =>
              (if negb meetsMinVersion
               then Println (PrintString ("Warning: " +:+ MinServerWarningMsg))
               else ret tt) ;;;
              if negb (StatusCode resp =? 200)%Z
              then ret (Some (ZepError ServerErrorMessage))
              else ret None
          end
      end
  end.

(** NewZepClient *)
Definition NewZepClient (serverURL apiKey : string) (client : option HttpClient)
  : M (option loc) :=
  let headers : gmap string string := ∅ in
  let headers := if negb (String.eqb apiKey "")
                 then <["Authorization" := "Bearer " +:+ apiKey]> headers
                 else headers in
  let client := match client with
                | None => Some (clientWithTimeout (DefaultRequestTimeout * Second))
                | Some _ => client
                end in
  let serverURL := TrimSuffix serverURL "/" in
  c <- alloc {| ServerURL := serverURL; Headers := headers; Client := client |} ;;
  err <- CheckServer (Some c) ;;
  match err with
  | Some e => Println (PrintError e)
  | None => ret tt
  end ;;;
  ret (Some c).

(** HandleRequest: the pair (response, error) it returns. [requestPromise]
    is a pointer; Client.Do reads the request at once, so the call panics on
    nil. *)
Definition HandleRequest (z : option loc) (requestPromise : option Request)
    (notFoundMessage : string) : M (option Response * option error) :=
  c <- deref z ;;
  match requestPromise with
  | None => panic
  | Some request =>
      r <- Do (Client c) request ;;
      match r with
      | inl err => ret (None, Some (ZepError (ServerErrorMessage +:+ ": " +:+ Error err)))
      | inr response =>
          if (StatusCode response =? 200)%Z then ret (Some response, None)
          else if (StatusCode response =? 404)%Z
          then ret (None, Some (NotFoundError notFoundMessage))
          else if (StatusCode response =? 401)%Z
          then ret (None, Some (AuthenticationError "Authentication failed."))
          else ret (None, Some (APIError ("Got an unexpected status code: "
                                          +:+ itoa (StatusCode response))))
      end
  end.

End Client.

End Legacy.

(** ** The generated search client: src/unnamed/part_000 *)

Module Search.

(** *core.APIError, as core.NewAPIError(statusCode, err) builds it. *)
Record APIError := NewAPIError {
  APIError_StatusCode : Z;
  APIError_err : lib_error
}.

(** What part_000 uses of the packages zepgo, core, option, fmt and
    encoding/json, whose declarations are not part of the two files: the
    typed errors with their zero value, their APIError field and their JSON
    decoding; the payload types; the request options with the fields Get
    reads; query-string building; the merge of two headers; and the
    formatting of the URL. The last four fields are what the spec leaves
    open about the request executor: the JSON encoding of the request and
    decoding of the response, which status codes are error status codes,
    and the attempt count used when none is configured. *)
Class Zepgo {http : HTTP} := {
  NotFoundError : Type;
  new_NotFoundError : NotFoundError;
  NotFoundError_with_APIError : NotFoundError -> APIError -> NotFoundError;
  NotFoundError_Decode : string -> NotFoundError -> lib_error + NotFoundError;
  InternalServerError : Type;
  new_InternalServerError : InternalServerError;
  InternalServerError_with_APIError : InternalServerError -> APIError -> InternalServerError;
  InternalServerError_Decode : string -> InternalServerError -> lib_error + InternalServerError;
  MemorySearchPayload : Type;
  MemorySearchResult : Type;
  RequestOption : Type;
  RequestOptions : Type;
  NewRequestOptions : list RequestOption -> RequestOptions;
  BaseURL : RequestOptions -> string;
  HTTPClient : RequestOptions -> option HttpClient;
  MaxAttempts : RequestOptions -> nat;
  ToHeader_value : RequestOptions -> Header;
  QueryValues : option MemorySearchPayload -> lib_error + gmap string (list string);
  Values_Encode : gmap string (list string) -> string;
  Sprintf_v : string -> string -> string;
  MergeHeaders_value : Header -> Header -> Header;
  Marshal : option MemorySearchPayload -> lib_error + option string;
  Unmarshal : string -> lib_error + list MemorySearchResult;
  isErrorStatus : Z -> bool;
  defaultMaxAttempts : nat
}.

Section Client.
Context {http : HTTP} {zepgo : Zepgo}.

(** The error values Get can return. *)
Inductive error : Type :=
| External (err : lib_error)
| ErrAPIError (e : APIError)
| ErrNotFoundError (value : NotFoundError)
| ErrInternalServerError (value : InternalServerError).

(** The heap holds the http.Header maps; nothing is printed. *)
Abbreviation M := (@M http Header Empty_set).

(** Header.Clone: a new map with the same keys and copies of the values. *)
Definition Clone (h : loc) : M loc :=
  v <- deref (Some h) ;;
  alloc v.

(** options.ToHeader(): a header map built for the call. *)
Definition ToHeader (options : RequestOptions) : M loc :=
  alloc (ToHeader_value options).

(** core.MergeHeaders(left, right) writes the entries of [right] into the
    map [left] and returns [left]. *)
Definition MergeHeaders (left right : loc) : M loc :=
  l <- deref (Some left) ;;
  r <- deref (Some right) ;;
  store left (MergeHeaders_value l r) ;;;
  ret left.

(** The closure errorDecoder of Get. *)
Definition errorDecoder (statusCode : Z) (body : lib_error + string) : error :=
  match body with
  | inl err => External err
  | inr raw =>
      let apiError := NewAPIError statusCode (errorString raw) in
      if (statusCode =? 404)%Z then
        let value := NotFoundError_with_APIError new_NotFoundError apiError in
        match NotFoundError_Decode raw value with
        | inl _ => ErrAPIError apiError
        | inr value => ErrNotFoundError value
        end
      else if (statusCode =? 500)%Z then
        let value := InternalServerError_with_APIError new_InternalServerError apiError in
        match InternalServerError_Decode raw value with
        | inl _ => ErrAPIError apiError
        | inr value => ErrInternalServerError value
        end
      else ErrAPIError apiError
  end.

(** core.CallerParams and core.Caller, with the fields NewClient sets. *)
Record Caller := NewCaller {
  Caller_Client : option HttpClient;
  Caller_MaxAttempts : nat
}.

(** core.CallParams, with the fields Get sets; the out-parameter Response
    is the first component of what [Call] returns. *)
Record CallParams := mkCallParams {
  CallParams_URL : string;
  CallParams_Method : string;
  CallParams_MaxAttempts : nat;
  CallParams_Headers : loc;
  CallParams_Client : option HttpClient;
  CallParams_Request : option MemorySearchPayload;
  CallParams_ErrorDecoder : Z -> lib_error + string -> error
}.

(** Modelled from the spec: the per-call attempt count of core.Caller (not
    part of the two files). The spec speaks of "a configured attempt count";
    NewClient configures one on the caller and Get one per call, so the
    per-call value is taken when set, then the caller's, as Get itself does
    for the base URL; with nothing configured the executor's default applies. *)
Definition configuredMaxAttempts (caller : Caller) (params : CallParams) : nat :=
  if (0 <? CallParams_MaxAttempts params)%nat then CallParams_MaxAttempts params
  else if (0 <? Caller_MaxAttempts caller)%nat then Caller_MaxAttempts caller
  else defaultMaxAttempts.

(** Modelled from the spec: the retry loop of core.Caller (not part of the
    two files): "retries up to a configured attempt count on transient
    failure", "a fixed attempt count for transport-level failures". A
    response, whatever its status, ends the loop. *)
Fixpoint attempt (n : nat) (client : option HttpClient) (req : Request) (last : lib_error)
  : M (lib_error + Response) :=
  match n with
  | O => ret (inl last)
  | S n' =>
      r <- Do client req ;;
      match r with
      | inl err => attempt n' client req err
      | inr resp => ret (inr resp)
      end
  end.

(** Modelled from the spec: core.Caller.Call (not part of the two files):
    "sends an HTTP request, retries up to a configured attempt count on
    transient failure, decodes a successful JSON body into the expected type,
    and on error status codes invokes a status-code-keyed decoder to produce
    a typed error". *)
Definition Call (caller : Caller) (params : CallParams)
  : M (list MemorySearchResult * option error) :=
  headers <- deref (Some (CallParams_Headers params)) ;;
  match Marshal (CallParams_Request params) with
  | inl err => ret ([], Some (External err))
  | inr body =>
      let req := {| Method := CallParams_Method params; URL := CallParams_URL params;
                    ReqHeader := headers; ReqBody := body |} in
      let client := match CallParams_Client params with
                    | Some c => Some c
                    | None => Caller_Client caller
                    end in
      r <- attempt (configuredMaxAttempts caller params) client req
             (errorString "no attempt was made") ;;
      match r with
      | inl err => ret ([], Some (External err))
      | inr resp =>
          if isErrorStatus (StatusCode resp)
          then ret ([], Some (CallParams_ErrorDecoder params (StatusCode resp) (Body resp)))
          else match Body resp with
               | inl err => ret ([], Some (External err))
               | inr raw =>
                   match Unmarshal raw with
                   | inl err => ret ([], Some (External err))
                   | inr response => ret (response, None)
                   end
               end
      end
  end.

Record Client := mkClient {
  baseURL : string;
  caller : Caller;
  header : loc
}.

(** NewClient *)
Definition NewClient (opts : list RequestOption) : M Client :=
  let options := NewRequestOptions opts in
  h <- ToHeader options ;;
  ret {| baseURL := BaseURL options;
         caller := NewCaller (HTTPClient options) (MaxAttempts options);
         header := h |}.

(** Get. The context argument only reaches the transport, which is part of
    the world. *)
Definition Get (c : Client) (sessionID : string) (request : option MemorySearchPayload)
    (opts : list RequestOption) : M (list MemorySearchResult * option error) :=
  let options := NewRequestOptions opts in
  let baseURL_ := "https://api.getzep.com/api/v2" in
  let baseURL_ := if negb (String.eqb (baseURL c) "") then baseURL c else baseURL_ in
  let baseURL_ := if negb (String.eqb (BaseURL options) "") then BaseURL options else baseURL_ in
  let endpointURL := Sprintf_v (baseURL_ +:+ "/" +:+ "sessions/%v/search") sessionID in
  match QueryValues request with
  | inl err => ret ([], Some (External err))
  | inr queryParams =>
      let endpointURL := if (0 <? size queryParams)%nat
                         then endpointURL +:+ "?" +:+ Values_Encode queryParams
                         else endpointURL in
      cloned <- Clone (header c) ;;
      perRequest <- ToHeader options ;;
      headers <- MergeHeaders cloned perRequest ;;
      res <- Call (caller c)
               {| CallParams_URL := endpointURL;
                  CallParams_Method := "POST";
                  CallParams_MaxAttempts := MaxAttempts options;
                  CallParams_Headers := headers;
                  CallParams_Client := HTTPClient options;
                  CallParams_Request := request;
                  CallParams_ErrorDecoder := errorDecoder |} ;;
      match res with
      | (_, Some err) => ret ([], Some err)
      | (response, None) => ret (response, None)
      end
  end.

End Client.

End Search.

(** ** Semantic versions *)

(** Modelled from the spec: the version gate "compares it against a minimum
    supported version using semantic-version ordering". The package that
    does so (github.com/Masterminds/semver/v3: NewVersion, NewConstraint,
    Check) is not part of the two files; it is modelled here as Semantic
    Versioning 2.0.0 itself: a version is MAJOR.MINOR.PATCH with an optional
    -prerelease and +build, numbers carry no leading zero, and precedence
    is numeric on the three numbers, a pre-release coming before its release. *)
Module SemverModel.

Definition is_digit (a : ascii) : bool :=
  let n := nat_of_ascii a in (48 <=? n)%nat && (n <=? 57)%nat.

Definition is_letter (a : ascii) : bool :=
  let n := nat_of_ascii a in
  ((65 <=? n)%nat && (n <=? 90)%nat) || ((97 <=? n)%nat && (n <=? 122)%nat).

Definition is_identifier_char (a : ascii) : bool :=
  is_digit a || is_letter a || Ascii.eqb a "-".

Fixpoint all_chars (p : ascii -> bool) (s : string) : bool :=
  match s with
  | EmptyString => true
  | String a s' => p a && all_chars p s'
  end.

(** The text before the first [c], and the text after it if [c] occurs. *)
Fixpoint cut (c : ascii) (s : string) : string * option string :=
  match s with
  | EmptyString => (EmptyString, None)
  | String a s' =>
      if Ascii.eqb a c then (EmptyString, Some s')
      else let (before, after) := cut c s' in (String a before, after)
  end.

(** The pieces of [s] between the occurrences of [c]. *)
Fixpoint split (c : ascii) (s : string) : list string :=
  match s with
  | EmptyString => [EmptyString]
  | String a s' =>
      if Ascii.eqb a c then EmptyString :: split c s'
      else match split c s' with
           | piece :: pieces => String a piece :: pieces
           | [] => [String a EmptyString]
           end
  end.

Fixpoint decimal (acc : N) (s : string) : N :=
  match s with
  | EmptyString => acc
  | String a s' => decimal (10 * acc + (N_of_ascii a - 48)) s'
  end.

(** A numeric identifier: digits, without a leading zero. *)
Definition numeric (s : string) : option N :=
  if negb (String.eqb s "") && all_chars is_digit s
     && (String.eqb s "0" || negb (String.prefix "0" s))
  then Some (decimal 0 s)
  else None.

Inductive identifier : Type :=
| Numeric (n : N)
| Alphanumeric (s : string).

Definition prerelease_identifier (s : string) : option identifier :=
  if String.eqb s "" then None
  else if all_chars is_digit s then Numeric <$> numeric s
  else if all_chars is_identifier_char s then Some (Alphanumeric s)
  else None.

Definition build_identifier (s : string) : option string :=
  if negb (String.eqb s "") && all_chars is_identifier_char s then Some s else None.

Fixpoint traverse {A B} (f : A -> option B) (l : list A) : option (list B) :=
  match l with
  | [] => Some []
  | x :: l' =>
      match f x, traverse f l' with
      | Some y, Some ys => Some (y :: ys)
      | _, _ => None
      end
  end.

Record version := mkVersion {
  major : N;
  minor : N;
  patch : N;
  prerelease : list identifier;
  build : list string
}.

(** Modelled from the spec: the reading of a version string (semver.NewVersion
    is missing): MAJOR.MINOR.PATCH, then "-" and dot-separated pre-release
    identifiers, then "+" and dot-separated build identifiers. *)
Definition parse (s : string) : option version :=
  let (rest, build_part) := cut "+" s in
  let (core, pre_part) := cut "-" rest in
  match split "." core with
  | [a; b; c] =>
      match numeric a, numeric b, numeric c with
      | Some ma, Some mi, Some pa =>
          match from_option (fun p => traverse prerelease_identifier (split "." p)) (Some []) pre_part,
                from_option (fun p => traverse build_identifier (split "." p)) (Some []) build_part with
          | Some pre, Some bld => Some (mkVersion ma mi pa pre bld)
          | _, _ => None
          end
      | _, _, _ => None
      end
  | _ => None
  end.

Definition ErrInvalidSemVer := errorString "Invalid Semantic Version".

Definition NewVersion (s : string) : lib_error + version :=
  match parse s with
  | Some v => inr v
  | None => inl ErrInvalidSemVer
  end.

Definition compare_identifier (a b : identifier) : comparison :=
  match a, b with
  | Numeric m, Numeric n => N.compare m n
  | Numeric _, Alphanumeric _ => Lt
  | Alphanumeric _, Numeric _ => Gt
  | Alphanumeric s, Alphanumeric t => String.compare s t
  end.

Fixpoint compare_identifiers (a b : list identifier) : comparison :=
  match a, b with
  | [], [] => Eq
  | [], _ :: _ => Lt
  | _ :: _, [] => Gt
  | x :: a', y :: b' =>
      match compare_identifier x y with
      | Eq => compare_identifiers a' b'
      | c => c
      end
  end.

Definition compare_prerelease (a b : list identifier) : comparison :=
  match a, b with
  | [], [] => Eq
  | [], _ :: _ => Gt
  | _ :: _, [] => Lt
  | _, _ => compare_identifiers a b
  end.

(** Modelled from the spec: "semantic-version ordering" (the package's
    comparison is missing): precedence as Semantic Versioning defines it;
    build metadata takes no part in it. *)
Definition Compare (v w : version) : comparison :=
  match N.compare (major v) (major w) with
  | Eq => match N.compare (minor v) (minor w) with
          | Eq => match N.compare (patch v) (patch w) with
                  | Eq => compare_prerelease (prerelease v) (prerelease w)
                  | c => c
                  end
          | c => c
          end
  | c => c
  end.

Inductive operator : Type := OpEq | OpNe | OpGt | OpLt | OpGe | OpLe.

Record constraint := mkConstraint {
  op : operator;
  bound : version
}.

Definition parse_operator (s : string) : option (operator * string) :=
  match s with
  | String ">" (String "=" r) => Some (OpGe, r)
  | String "<" (String "=" r) => Some (OpLe, r)
  | String "!" (String "=" r) => Some (OpNe, r)
  | String ">" r => Some (OpGt, r)
  | String "<" r => Some (OpLt, r)
  | String "=" r => Some (OpEq, r)
  | _ => None
  end.

Fixpoint skip_spaces (s : string) : string :=
  match s with
  | String " " s' => skip_spaces s'
  | _ => s
  end.

(** Modelled from the spec: a constraint (semver.NewConstraint is missing) is
    a comparison operator and the version it compares with. *)
Definition NewConstraint (s : string) : lib_error + constraint :=
  match parse_operator s with
  | Some (o, r) =>
      match parse (skip_spaces r) with
      | Some v => inr (mkConstraint o v)
      | None => inl (errorString "improper constraint")
      end
  | None => inl (errorString "improper constraint")
  end.

(** Modelled from the spec: a version satisfies a constraint
    (Constraints.Check is missing) when it compares with the bound as the
    operator says, by precedence. *)
Definition Check (c : constraint) (v : version) : bool :=
  match Compare v (bound c), op c with
  | Eq, (OpEq | OpGe | OpLe) => true
  | Lt, (OpNe | OpLt | OpLe) => true
  | Gt, (OpNe | OpGt | OpGe) => true
  | _, _ => false
  end.

Definition lib : Legacy.Semver :=
  {| Legacy.Version := version;
     Legacy.Constraints := constraint;
     Legacy.NewConstraint := NewConstraint;
     Legacy.NewVersion := NewVersion;
     Legacy.Check := Check |}.

(** 0.16.0, the value of MinServerVersion *)
Definition minimum : version := mkVersion 0 16 0 [] [].

End SemverModel.

(** ** A scripted world

    A concrete instance of the parameters, on which the definitions above
    can be run: the calls of Client.Do are answered in turn from a script,
    and when the script is exhausted the connection is refused. *)
Module Scripted.

Definition refused : lib_error := errorString "connection refused".

Definition lower (a : ascii) : ascii :=
  let n := nat_of_ascii a in
  if (65 <=? n)%nat && (n <=? 90)%nat then ascii_of_nat (n + 32) else a.

Fixpoint ToLower (s : string) : string :=
  match s with
  | EmptyString => EmptyString
  | String a s' => String (lower a) (ToLower s')
  end.

(** The double quote. *)
Definition quote : string := String (ascii_of_nat 34) EmptyString.

(** The text of the *url.Error Client.Do returns: the operation (the method,
    capitalised), the quoted URL, a colon and the cause. *)
Definition url_Error (req : Request) (cause : string) : lib_error :=
  errorString
    (match Method req with
     | EmptyString => "Get"
     | String a rest => String a (ToLower rest)
     end +:+ " " +:+ quote +:+ URL req +:+ quote +:+ ": " +:+ cause).

Definition refusal (req : Request) : lib_error :=
  url_Error req "dial tcp 127.0.0.1:8000: connect: connection refused".

Definition http : HTTP :=
  {| World := list (lib_error + Response);
     HttpClient := Z;
     clientWithTimeout := fun d => d;
     RoundTrip := fun _ req w => match w with
                                 | [] => (inl (refusal req), [])
                                 | r :: w' => (r, w')
                                 end;
     CanonicalMIMEHeaderKey := fun k => k;
     NewRequest_rejects := fun _ _ => None |}.

(** A response with the given status, X-Zep-Version header and body. *)
Definition response (status : Z) (version body : string) : Response :=
  {| StatusCode := status;
     RespHeader := {[ "X-Zep-Version" := [version] ]};
     Body := inr body |}.

Definition initial {Obj Out : Type} (script : list (lib_error + Response)) : @State http Obj Out :=
  @mkState http Obj Out script [] [] ∅.

(** Typed errors: the APIError field and the decoded body; a body decodes
    when it is a JSON object. *)
Definition typed_error : Type := option Search.APIError * string.

Definition decode_typed (raw : string) (value : typed_error) : lib_error + typed_error :=
  if String.prefix "{" raw then inr (fst value, raw)
  else inl (errorString "invalid character looking for beginning of value").

Definition zepgo : @Search.Zepgo http :=
  {| Search.NotFoundError := typed_error;
     Search.new_NotFoundError := (None, "");
     Search.NotFoundError_with_APIError := fun v e => (Some e, snd v);
     Search.NotFoundError_Decode := decode_typed;
     Search.InternalServerError := typed_error;
     Search.new_InternalServerError := (None, "");
     Search.InternalServerError_with_APIError := fun v e => (Some e, snd v);
     Search.InternalServerError_Decode := decode_typed;
     Search.MemorySearchPayload := string;
     Search.MemorySearchResult := string;
     Search.RequestOption := nat;
     Search.RequestOptions := nat;
     Search.NewRequestOptions := fun opts => fold_left (fun _ n => n) opts 0%nat;
     Search.BaseURL := fun _ => "";
     Search.HTTPClient := fun _ => None;
     Search.MaxAttempts := fun n => n;
     Search.ToHeader_value := fun _ => {[ "X-Request" := ["1"] ]};
     Search.QueryValues := fun _ => inr ∅;
     Search.Values_Encode := fun _ => "";
     Search.Sprintf_v := fun format _ => format;
     Search.MergeHeaders_value := fun l r => r ∪ l;
     Search.Marshal := fun request => inr request;
     Search.Unmarshal := fun raw => inr [raw];
     Search.isErrorStatus := fun status => negb ((200 <=? status)%Z && (status <? 300)%Z);
     Search.defaultMaxAttempts := 1 |}.

(** A search client whose stored header lives at location 1. *)
Definition client : @Search.Client http :=
  @Search.mkClient http "http://localhost:8000"
    (@Search.NewCaller http (Some 30%Z) 0) 1%positive.

Definition with_header (script : list (lib_error + Response)) : @State http Header Empty_set :=
  @mkState http Header Empty_set script [] []
    {[ 1%positive := {[ "Authorization" := ["Api-Key k"] ]} ]}.

(** A legacy client at location 1, without API key. *)
Definition legacy_client : @Legacy.DefaultZepClient http :=
  @Legacy.mkClient http "http://localhost:8000" ∅ (Some 30%Z).

Definition with_client (script : list (lib_error + Response))
  : @State http (@Legacy.DefaultZepClient http) Legacy.printed :=
  @mkState http _ _ script [] [] {[ 1%positive := legacy_client ]}.

Definition request : Request :=
  {| Method := "GET"; URL := "http://localhost:8000/api/v1/sessions/s1/memory";
     ReqHeader := ∅; ReqBody := None |}.

End Scripted.

(** ** The categories of results the specification speaks of *)

Inductive category : Type :=
| Success
| NotFound
| AuthenticationFailure
| InternalServer
| GenericAPI
| Unclassified.

(** The mapping in the specification's words: 200 is success, "404 →
    not-found, 401 → authentication failure, 500 → internal server error,
    other → generic API error". *)
Definition category_by_status (status : Z) : category :=
  if (status =? 200)%Z then Success
  else if (status =? 404)%Z then NotFound
  else if (status =? 401)%Z then AuthenticationFailure
  else if (status =? 500)%Z then InternalServer
  else GenericAPI.

(** The category of what HandleRequest returns: success is a response with
    a nil error; an error, with a nil response, counts by its type. *)
Definition legacy_category (result : option Response * option Legacy.error) : category :=
  match result with
  | (Some _, None) => Success
  | (None, Some (Legacy.NotFoundError _)) => NotFound
  | (None, Some (Legacy.AuthenticationError _)) => AuthenticationFailure
  | (None, Some (Legacy.APIError _)) => GenericAPI
  | _ => Unclassified
  end.

(** The category of an error of the generated client, by its type. *)
Definition search_category {http : HTTP} {zepgo : Search.Zepgo} (err : Search.error) : category :=
  match err with
  | Search.ErrNotFoundError _ => NotFound
  | Search.ErrInternalServerError _ => InternalServer
  | Search.ErrAPIError _ => GenericAPI
  | Search.External _ => Unclassified
  end.

(** "The X-Zep-Version header value is below the minimum supported version":
    it is a version, and the constraint ">= MinServerVersion" rejects it. *)
Definition belowMinimum {semver : Legacy.Semver} (value : string) : Prop :=
  exists c v,
    Legacy.NewConstraint (">= " +:+ Legacy.MinServerVersion) = inr c
    /\ Legacy.NewVersion value = inr v
    /\ Legacy.Check c v = false.

(** "Retries happen only on transport-level failure": among the attempts of
    one call, an attempt that got a response, whatever its status code, is
    the last one. *)
Definition response_ends_attempts (attempts : list (Request * (lib_error + Response))) : Prop :=
  forall i req resp, attempts !! i = Some (req, inr resp) -> S i = length attempts.

(** ** What a computation leaves unchanged, and how many attempts it makes *)

Section Effects.
Context {http : HTTP} {Obj Out : Type}.

(** [m] takes every state to one related to it by [R], also when it panics. *)
Definition preserves {A} (R : State Obj Out -> State Obj Out -> Prop) (m : @M http Obj Out A)
  : Prop :=
  forall st, R st (snd (m st)).

Definition same_heap (st st' : State Obj Out) : Prop := heap st' = heap st.
Definition same_trace (st st' : State Obj Out) : Prop := trace st' = trace st.

(** [m] makes at most [n] attempts, and a response ends them. *)
Definition attempts_within {A} (n : nat) (m : @M http Obj Out A) : Prop :=
  forall st,
    exists new, trace (snd (m st)) = trace st ++ new
                /\ length new <= n
                /\ response_ends_attempts new.

End Effects.

(** * Properties *)

(** ** Strings *)

Section StringFacts.

Lemma append_cons (a : ascii) (p s : string) : String a p +:+ s = String a (p +:+ s).
Proof. reflexivity. Qed.

Lemma length_append (p s : string) :
  String.length (p +:+ s) = (String.length p + String.length s)%nat.
Proof.
  induction p as [|a p IH]; [reflexivity|].
  rewrite append_cons. simpl. now rewrite IH.
Qed.

Lemma append_assoc (p q r : string) : (p +:+ q) +:+ r = p +:+ (q +:+ r).
Proof.
  induction p as [|a p IH]; [reflexivity|].
  rewrite !append_cons. now rewrite IH.
Qed.

Lemma substring_whole (s : string) : substring 0 (String.length s) s = s.
Proof. induction s as [|a s IH]; simpl; [reflexivity | now rewrite IH]. Qed.

Lemma substring_after (p s : string) (n : nat) :
  substring (String.length p) n (p +:+ s) = substring 0 n s.
Proof.
  induction p as [|a p IH]; [reflexivity|].
  rewrite append_cons. simpl. apply IH.
Qed.

Lemma substring_before (p s : string) : substring 0 (String.length p) (p +:+ s) = p.
Proof.
  induction p as [|a p IH].
  - now destruct s.
  - rewrite append_cons. simpl. now rewrite IH.
Qed.

Lemma substring_cover (s : string) : forall n : nat,
  (n <= String.length s)%nat ->
  substring 0 n s +:+ substring n (String.length s - n) s = s.
Proof.
  induction s as [|a s IH]; intros n Hn; simpl in Hn.
  - assert (n = 0%nat) as -> by lia. reflexivity.
  - destruct n as [|n]; simpl.
    + now rewrite substring_whole.
    + rewrite append_cons, IH by lia. reflexivity.
Qed.

(** [HasSuffix s t] holds exactly when [s] is some text followed by [t]. *)
Lemma HasSuffix_iff (s t : string) : HasSuffix s t = true <-> exists p, s = p +:+ t.
Proof.
  unfold HasSuffix. rewrite andb_true_iff, Nat.leb_le, String.eqb_eq. split.
  - intros [Hle Hsub]. exists (substring 0 (String.length s - String.length t) s).
    pose proof (substring_cover s (String.length s - String.length t)) as Hc.
    replace (String.length s - (String.length s - String.length t))%nat
      with (String.length t) in Hc by lia.
    rewrite Hsub in Hc. symmetry. apply Hc. lia.
  - intros [p ->]. rewrite length_append. split; [lia|].
    replace (String.length p + String.length t - String.length t)%nat
      with (String.length p) by lia.
    rewrite substring_after. apply substring_whole.
Qed.

Lemma TrimSuffix_app (p t : string) : TrimSuffix (p +:+ t) t = p.
Proof.
  unfold TrimSuffix.
  assert (HasSuffix (p +:+ t) t = true) as -> by (apply HasSuffix_iff; eauto).
  rewrite length_append.
  replace (String.length p + String.length t - String.length t)%nat
    with (String.length p) by lia.
  apply substring_before.
Qed.

Lemma TrimSuffix_no_suffix (s t : string) : HasSuffix s t = false -> TrimSuffix s t = s.
Proof. unfold TrimSuffix. now intros ->. Qed.

(** After one slash is trimmed, a slash is left at the end exactly when the
    text ended in two. *)
Lemma HasSuffix_TrimSuffix_slash (s : string) :
  HasSuffix (TrimSuffix s "/") "/" = HasSuffix s "//".
Proof.
  apply eq_true_iff_eq. rewrite !HasSuffix_iff. split.
  - intros [p Hp]. destruct (HasSuffix s "/") eqn:Hs.
    + apply HasSuffix_iff in Hs as [q ->]. rewrite TrimSuffix_app in Hp. subst q.
      exists p. now rewrite append_assoc.
    + rewrite TrimSuffix_no_suffix in Hp by assumption.
      assert (HasSuffix s "/" = true) by (apply HasSuffix_iff; eauto). congruence.
  - intros [p ->]. exists p.
    change "//" with ("/" +:+ "/"). rewrite <- append_assoc. apply TrimSuffix_app.
Qed.

End StringFacts.

(** ** Effects: what a computation leaves unchanged *)

Section Frames.
Context {http : HTTP} {Obj Out : Type}.

Abbreviation M := (@M http Obj Out).
Abbreviation State := (@State http Obj Out).

Lemma preserves_ret {A} (R : State -> State -> Prop) `{!Reflexive R} (a : A) :
  preserves R (ret a).
Proof. intros st. simpl. reflexivity. Qed.

Lemma preserves_panic {A} (R : State -> State -> Prop) `{!Reflexive R} :
  preserves R (@panic _ _ _ A).
Proof. intros st. simpl. reflexivity. Qed.

Lemma preserves_bind {A B} (R : State -> State -> Prop) `{!Transitive R}
    (m : M A) (k : A -> M B) :
  preserves R m -> (forall a, preserves R (k a)) -> preserves R (bind m k).
Proof.
  intros Hm Hk st. unfold bind. specialize (Hm st).
  destruct (m st) as [[a|] st1]; simpl in *; [|assumption].
  etransitivity; [eassumption | apply Hk].
Qed.

Lemma preserves_deref (R : State -> State -> Prop) `{!Reflexive R} (p : option loc) :
  preserves R (deref p).
Proof.
  intros st. unfold deref. destruct p as [l|]; [destruct (heap st !! l)|]; simpl; reflexivity.
Qed.

#[export] Instance same_heap_refl : Reflexive (@same_heap http Obj Out).
Proof. now intros st. Qed.

#[export] Instance same_heap_trans : Transitive (@same_heap http Obj Out).
Proof. unfold same_heap. intros s1 s2 s3 H1 H2. congruence. Qed.

#[export] Instance same_trace_refl : Reflexive (@same_trace http Obj Out).
Proof. now intros st. Qed.

#[export] Instance same_trace_trans : Transitive (@same_trace http Obj Out).
Proof. unfold same_trace. intros s1 s2 s3 H1 H2. congruence. Qed.

Lemma Println_same_heap (x : Out) : preserves same_heap (@Println http Obj Out x).
Proof. now intros st. Qed.

Lemma Do_same_heap (client : option HttpClient) (req : Request) :
  preserves same_heap (@Do http Obj Out client req).
Proof.
  intros st. unfold Do. destruct client as [c|]; [|reflexivity].
  now destruct (RoundTrip c req (world st)).
Qed.

Lemma Println_same_trace (x : Out) : preserves same_trace (@Println http Obj Out x).
Proof. now intros st. Qed.

Lemma alloc_same_trace (o : Obj) : preserves same_trace (@alloc http Obj Out o).
Proof. now intros st. Qed.

Lemma store_same_trace (l : loc) (o : Obj) : preserves same_trace (@store http Obj Out l o).
Proof. intros st. unfold store. now destruct (heap st !! l). Qed.

End Frames.

(** Splits a computation along its binds and case distinctions and closes
    the leaves with the lemmas above. *)
Ltac frame :=
  repeat first
    [ apply preserves_ret; typeclasses eauto
    | apply preserves_panic; typeclasses eauto
    | apply preserves_deref; typeclasses eauto
    | apply Println_same_heap
    | apply Do_same_heap
    | apply Println_same_trace
    | apply alloc_same_trace
    | apply store_same_trace
    | apply preserves_bind; [typeclasses eauto | | intros ?]
    | progress cbv beta zeta
    | match goal with
      | |- preserves _ (match ?x with _ => _ end) => destruct x
      end ].

(** ** The legacy client *)

Section LegacyFacts.
Import Legacy.
Context {http : HTTP} {semver : Semver}.

Abbreviation St := (@State http DefaultZepClient printed).

Lemma CheckServer_same_heap (z : option loc) : preserves same_heap (CheckServer z).
Proof. unfold CheckServer. frame. Qed.

Lemma HandleRequest_same_heap (z : option loc) (req : option Request) (msg : string) :
  preserves same_heap (HandleRequest z req msg).
Proof. unfold HandleRequest. frame. Qed.

Lemma GetFullURL_same_heap (z : option loc) (endpoint : string) :
  preserves same_heap (GetFullURL z endpoint).
Proof. unfold GetFullURL. frame. Qed.

(** On a client with an http.Client, CheckServer returns. *)
Lemma CheckServer_returns (z : loc) (c : DefaultZepClient) (hc : HttpClient) (st : St) :
  heap st !! z = Some c -> Client c = Some hc ->
  exists r st', CheckServer (Some z) st = (Returned r, st').
Proof.
  intros Hz Hc. unfold CheckServer, bind, deref. rewrite Hz.
  destruct (NewRequest _ _ _) as [err|req]; [unfold ret; eauto|].
  unfold Do. rewrite Hc. destruct (RoundTrip _ _ _) as [[err|resp] w]; [unfold ret; eauto|].
  destruct (isVersionGreaterOrEqual _) as [meets [err|]]; [unfold ret; eauto|].
  destruct meets; simpl; destruct (StatusCode resp =? 200)%Z; simpl; unfold ret; eauto.
Qed.

(** What CheckServer does once the health check got a response. *)
Lemma CheckServer_on_response (z : loc) (c : DefaultZepClient) (hc : HttpClient)
    (req : Request) (resp : Response) (w : World) (st : St) :
  heap st !! z = Some c -> Client c = Some hc ->
  NewRequest "GET" (ServerURL c +:+ "/healthz") None = inr req ->
  RoundTrip hc (addHeaders (Headers c) req) (world st) = (inr resp, w) ->
  let st1 := mkState w (trace st ++ [(addHeaders (Headers c) req, inr resp)]) (stdout st) (heap st) in
  CheckServer (Some z) st =
    match isVersionGreaterOrEqual (Header_Get (RespHeader resp) "X-Zep-Version") with
    | (_, Some err) => (Returned (Some err), st1)
    | (meets, None) =>
        (Returned (if (StatusCode resp =? 200)%Z then None else Some (ZepError ServerErrorMessage)),
         if meets then st1
         else mkState w (trace st1)
                (stdout st ++ [PrintString ("Warning: " +:+ MinServerWarningMsg)]) (heap st))
    end.
Proof.
  intros Hz Hc Hreq Hrt. unfold CheckServer, bind, deref. rewrite Hz. cbv zeta.
  rewrite Hreq. unfold Do. rewrite Hc, Hrt.
  destruct (isVersionGreaterOrEqual _) as [meets [err|]]; [reflexivity|].
  destruct meets; simpl; destruct (StatusCode resp =? 200)%Z; reflexivity.
Qed.

(** What NewZepClient does: it allocates the client, runs the health check
    on it, prints the error if there is one, and returns the pointer. *)
Lemma NewZepClient_run (serverURL apiKey : string) (client : option HttpClient) (st : St) :
  exists (l : loc) (r : option error) (st2 : St),
    let c := {| ServerURL := TrimSuffix serverURL "/";
                Headers := if String.eqb apiKey "" then ∅
                           else {[ "Authorization" := "Bearer " +:+ apiKey ]};
                Client := Some (default (clientWithTimeout (DefaultRequestTimeout * Second)) client) |} in
    let st1 := mkState (world st) (trace st) (stdout st) (<[l := c]> (heap st)) in
    heap st !! l = None
    /\ CheckServer (Some l) st1 = (Returned r, st2)
    /\ NewZepClient serverURL apiKey client st =
         (Returned (Some l),
          mkState (world st2) (trace st2)
            (stdout st2 ++ match r with Some e => [PrintError e] | None => [] end)
            (heap st1)).
Proof.
  set (l := fresh (dom (heap st))).
  set (c := {| ServerURL := TrimSuffix serverURL "/";
               Headers := if String.eqb apiKey "" then ∅
                          else {[ "Authorization" := "Bearer " +:+ apiKey ]};
               Client := Some (default (clientWithTimeout (DefaultRequestTimeout * Second)) client) |}).
  set (st1 := mkState (world st) (trace st) (stdout st) (<[l := c]> (heap st))).
  destruct (CheckServer_returns l c
              (default (clientWithTimeout (DefaultRequestTimeout * Second)) client) st1)
    as (r & st2 & Hrun).
  { apply lookup_insert_eq. }
  { reflexivity. }
  pose proof (CheckServer_same_heap (Some l) st1) as Hheap.
  rewrite Hrun in Hheap. unfold same_heap in Hheap. simpl in Hheap.
  exists l, r, st2. cbv zeta. fold c. fold st1. split; [|split].
  - apply not_elem_of_dom. apply is_fresh.
  - exact Hrun.
  - unfold NewZepClient. cbv zeta. unfold bind at 1. unfold alloc. fold l.
    replace (mkClient _ _ _) with c.
    2:{ unfold c. f_equal.
        - destruct (String.eqb apiKey ""); simpl; [reflexivity | symmetry; apply insert_empty].
        - now destruct client. }
    fold st1. unfold bind at 1. rewrite Hrun.
    destruct st2 as [w2 t2 o2 h2]. simpl in Hheap. subst h2.
    destruct r as [e|]; simpl; [reflexivity|].
    now rewrite app_nil_r.
Qed.

(** C8. NewZepClient always returns a non-nil client. Whatever the health
    check does, the result is a pointer to a newly allocated client with
    the trimmed URL, the Authorization header when an API key is given and
    the given (or the default) http.Client; the heap is changed in no other
    way. CheckServer returns on that client, and its error, if any, is
    printed to standard output and has no other effect. *)
Theorem NewZepClient_always_returns_client
    (serverURL apiKey : string) (client : option HttpClient) (st : St) :
  exists (l : loc) (r : option error) (st2 : St),
    fst (NewZepClient serverURL apiKey client st) = Returned (Some l)
    /\ heap st !! l = None
    /\ heap (snd (NewZepClient serverURL apiKey client st)) =
         <[l := {| ServerURL := TrimSuffix serverURL "/";
                   Headers := if String.eqb apiKey "" then ∅
                              else {[ "Authorization" := "Bearer " +:+ apiKey ]};
                   Client := Some (default (clientWithTimeout (DefaultRequestTimeout * Second))
                                     client) |}]> (heap st)
    /\ CheckServer (Some l)
         (mkState (world st) (trace st) (stdout st)
            (heap (snd (NewZepClient serverURL apiKey client st)))) = (Returned r, st2)
    /\ stdout (snd (NewZepClient serverURL apiKey client st)) =
         stdout st2 ++ match r with Some e => [PrintError e] | None => [] end
    /\ world (snd (NewZepClient serverURL apiKey client st)) = world st2
    /\ trace (snd (NewZepClient serverURL apiKey client st)) = trace st2.
Proof.
  destruct (NewZepClient_run serverURL apiKey client st) as (l & r & st2 & Hfresh & Hcheck & Hrun).
  cbv zeta in Hcheck, Hrun. exists l, r, st2. rewrite Hrun. simpl. tauto.
Qed.

(** C5, amended. NewZepClient stores TrimSuffix(serverURL, "/"): one
    trailing slash is removed. The stored ServerURL therefore ends with a
    slash exactly when serverURL ends with two. GetFullURL, CheckServer and
    HandleRequest leave every client on the heap as it is, so none of them
    changes a ServerURL. *)
Theorem NewZepClient_trims_one_slash
    (serverURL apiKey : string) (client : option HttpClient) (st : St) :
  (exists (l : loc) (c : DefaultZepClient),
      fst (NewZepClient serverURL apiKey client st) = Returned (Some l)
      /\ heap (snd (NewZepClient serverURL apiKey client st)) !! l = Some c
      /\ ServerURL c = TrimSuffix serverURL "/"
      /\ HasSuffix (ServerURL c) "/" = HasSuffix serverURL "//")
  /\ (forall z endpoint (s : St), heap (snd (GetFullURL z endpoint s)) = heap s)
  /\ (forall z (s : St), heap (snd (CheckServer z s)) = heap s)
  /\ (forall z req msg (s : St), heap (snd (HandleRequest z req msg s)) = heap s).
Proof.
  split; [|split; [|split]].
  - destruct (NewZepClient_run serverURL apiKey client st) as (l & r & st2 & _ & _ & Hrun).
    cbv zeta in Hrun. rewrite Hrun. simpl. eexists l, _. split; [reflexivity|].
    split; [apply lookup_insert_eq|]. simpl. split; [reflexivity|].
    apply HasSuffix_TrimSuffix_slash.
  - intros z endpoint s. apply GetFullURL_same_heap.
  - intros z s. apply CheckServer_same_heap.
  - intros z req msg s. apply HandleRequest_same_heap.
Qed.

(** C2. When the health check got a response: with status 200 and a version
    header below the minimum, CheckServer returns nil and the only effect
    besides the request is the warning on standard output; with a status
    other than 200, CheckServer returns a non-nil error. *)
Theorem CheckServer_warns_or_fails (z : loc) (c : DefaultZepClient) (hc : HttpClient)
    (req : Request) (resp : Response) (w : World) (st : St) :
  heap st !! z = Some c -> Client c = Some hc ->
  NewRequest "GET" (ServerURL c +:+ "/healthz") None = inr req ->
  RoundTrip hc (addHeaders (Headers c) req) (world st) = (inr resp, w) ->
  (StatusCode resp = 200%Z ->
   belowMinimum (Header_Get (RespHeader resp) "X-Zep-Version") ->
   fst (CheckServer (Some z) st) = Returned None
   /\ stdout (snd (CheckServer (Some z) st)) =
        stdout st ++ [PrintString ("Warning: " +:+ MinServerWarningMsg)])
  /\ (StatusCode resp <> 200%Z ->
      exists err, fst (CheckServer (Some z) st) = Returned (Some err)).
Proof.
  intros Hz Hc Hreq Hrt.
  rewrite (CheckServer_on_response z c hc req resp w st Hz Hc Hreq Hrt). cbv zeta. split.
  - intros Hstatus (k & v & Hk & Hv & Hcheck).
    unfold isVersionGreaterOrEqual. rewrite Hk, Hv, Hcheck, Hstatus. simpl. auto.
  - intros Hstatus. apply Z.eqb_neq in Hstatus.
    destruct (isVersionGreaterOrEqual _) as [meets [err|]]; simpl; [eauto|].
    rewrite Hstatus. eauto.
Qed.

End LegacyFacts.

(** C2 on a run: a server of version 0.15.0 answers 200 and only draws the
    warning; a server answering 503 makes CheckServer fail. *)
Lemma CheckServer_warns_or_fails_run :
  (fst (@Legacy.CheckServer Scripted.http SemverModel.lib (Some 1%positive)
          (Scripted.with_client [inr (Scripted.response 200 "0.15.0" "")])) = Returned None
   /\ stdout (snd (@Legacy.CheckServer Scripted.http SemverModel.lib (Some 1%positive)
                     (Scripted.with_client [inr (Scripted.response 200 "0.15.0" "")]))) =
        [] ++ [Legacy.PrintString ("Warning: " +:+ Legacy.MinServerWarningMsg)])
  /\ (exists err,
        fst (@Legacy.CheckServer Scripted.http SemverModel.lib (Some 1%positive)
               (Scripted.with_client [inr (Scripted.response 503 "0.16.0" "")]))
        = Returned (Some err)).
Proof.
  split.
  - apply (proj1 (@CheckServer_warns_or_fails Scripted.http SemverModel.lib 1%positive
                    Scripted.legacy_client 30%Z
                    (mkRequest "GET" "http://localhost:8000/healthz" ∅ None)
                    (Scripted.response 200 "0.15.0" "") []
                    (Scripted.with_client [inr (Scripted.response 200 "0.15.0" "")])
                    eq_refl eq_refl eq_refl eq_refl)).
    + reflexivity.
    + exists (SemverModel.mkConstraint SemverModel.OpGe SemverModel.minimum),
             (SemverModel.mkVersion 0 15 0 [] []).
      repeat split.
  - apply (proj2 (@CheckServer_warns_or_fails Scripted.http SemverModel.lib 1%positive
                    Scripted.legacy_client 30%Z
                    (mkRequest "GET" "http://localhost:8000/healthz" ∅ None)
                    (Scripted.response 503 "0.16.0" "") []
                    (Scripted.with_client [inr (Scripted.response 503 "0.16.0" "")])
                    eq_refl eq_refl eq_refl eq_refl)).
    discriminate.
Defined.

(** C5 as stated fails: the URL "http://localhost:8000//" is stored as
    "http://localhost:8000/", which ends with a slash. *)
Lemma NewZepClient_keeps_second_slash :
  fst (@Legacy.NewZepClient Scripted.http SemverModel.lib "http://localhost:8000//" "" None
         (Scripted.initial [])) = Returned (Some 1%positive)
  /\ @Legacy.ServerURL Scripted.http <$>
       heap (snd (@Legacy.NewZepClient Scripted.http SemverModel.lib "http://localhost:8000//" "" None
                    (Scripted.initial []))) !! 1%positive
     = Some "http://localhost:8000/"
  /\ HasSuffix "http://localhost:8000/" "/" = true.
Proof. vm_compute. auto. Qed.

(** ** The version gate *)

Section VersionGate.
Import Legacy.

(** With any semver package: once the constant constraint is accepted, the
    result is decided by NewVersion and Check alone. *)
Lemma isVersionGreaterOrEqual_cases {semver : Semver} (c : Constraints) (version : string) :
  NewConstraint (">= " +:+ MinServerVersion) = inr c ->
  isVersionGreaterOrEqual version =
    match NewVersion version with
    | inl err => (false, Some (External err))
    | inr v => (Check c v, None)
    end.
Proof. intros Hc. unfold isVersionGreaterOrEqual. now rewrite Hc. Qed.

Lemma minimum_constraint :
  SemverModel.NewConstraint (">= " +:+ MinServerVersion)
  = inr (SemverModel.mkConstraint SemverModel.OpGe SemverModel.minimum).
Proof. reflexivity. Qed.

Lemma Check_minimum (v : SemverModel.version) :
  SemverModel.Check (SemverModel.mkConstraint SemverModel.OpGe SemverModel.minimum) v = true
  <-> SemverModel.Compare v SemverModel.minimum <> Lt.
Proof.
  unfold SemverModel.Check. simpl.
  destruct (SemverModel.Compare v SemverModel.minimum); split; congruence.
Qed.

(** C4. With semantic versions read and ordered as Semantic Versioning
    defines them: isVersionGreaterOrEqual returns (true, nil) exactly when
    its argument is a valid semantic version of precedence at least that of
    0.16.0, and it returns an error exactly when its argument is not a valid
    semantic version. *)
Theorem isVersionGreaterOrEqual_semantic (version : string) :
  (@isVersionGreaterOrEqual SemverModel.lib version = (true, None)
   <-> exists v, SemverModel.parse version = Some v
                 /\ SemverModel.Compare v SemverModel.minimum <> Lt)
  /\ ((exists b err, @isVersionGreaterOrEqual SemverModel.lib version = (b, Some err))
      <-> SemverModel.parse version = None).
Proof.
  rewrite (@isVersionGreaterOrEqual_cases SemverModel.lib _ version minimum_constraint).
  simpl. unfold SemverModel.NewVersion.
  destruct (SemverModel.parse version) as [v|]; split; split.
  - intros H. exists v. split; [reflexivity|]. apply Check_minimum. congruence.
  - intros (v' & Hv & Hge). injection Hv as <-. apply Check_minimum in Hge.
    simpl in Hge. now rewrite Hge.
  - intros (b & err & H). discriminate.
  - discriminate.
  - discriminate.
  - intros (v & Hv & _). discriminate.
  - reflexivity.
  - eauto.
Qed.

End VersionGate.

(** The precedence chain of Semantic Versioning 2.0.0, section 11. *)
Example precedence_examples :
  let lt (a b : string) :=
    match SemverModel.parse a, SemverModel.parse b with
    | Some v, Some w => SemverModel.Compare v w
    | _, _ => Eq
    end = Lt in
  lt "1.0.0-alpha" "1.0.0-alpha.1" /\ lt "1.0.0-alpha.1" "1.0.0-alpha.beta"
  /\ lt "1.0.0-alpha.beta" "1.0.0-beta" /\ lt "1.0.0-beta" "1.0.0-beta.2"
  /\ lt "1.0.0-beta.2" "1.0.0-beta.11" /\ lt "1.0.0-beta.11" "1.0.0-rc.1"
  /\ lt "1.0.0-rc.1" "1.0.0" /\ lt "1.0.0" "2.0.0" /\ lt "2.0.0" "2.1.0"
  /\ lt "2.1.0" "2.1.1" /\ lt "0.9.0" "0.16.0".
Proof. vm_compute. tauto. Qed.

(** The gate on some version strings. *)
Example isVersionGreaterOrEqual_examples :
  @Legacy.isVersionGreaterOrEqual SemverModel.lib "0.16.0" = (true, None)
  /\ @Legacy.isVersionGreaterOrEqual SemverModel.lib "0.15.9" = (false, None)
  /\ @Legacy.isVersionGreaterOrEqual SemverModel.lib "1.0.0-rc.1+build.7" = (true, None)
  /\ @Legacy.isVersionGreaterOrEqual SemverModel.lib "0.16.0-rc.1" = (false, None)
  /\ @Legacy.isVersionGreaterOrEqual SemverModel.lib "0.16" =
       (false, Some (Legacy.External SemverModel.ErrInvalidSemVer))
  /\ @Legacy.isVersionGreaterOrEqual SemverModel.lib "" =
       (false, Some (Legacy.External SemverModel.ErrInvalidSemVer)).
Proof. vm_compute. tauto. Qed.

(** ** The generated search client *)

Section SearchFacts.
Import Search.
Context {http : HTTP} {zepgo : Zepgo}.

Abbreviation HState := (@State http Header Empty_set).
Abbreviation HM := (@M http Header Empty_set).

(** *** The error decoder *)

(** C7. In the error decoder of Get, on status 404 or 500 with a body that
    was read but does not decode into the typed error of that status, the
    error returned is the generic APIError made of the status code and of
    the raw body. *)
Theorem errorDecoder_keeps_raw_body (statusCode : Z) (raw : string) :
  (statusCode = 404%Z
   /\ exists err,
        NotFoundError_Decode raw
          (NotFoundError_with_APIError new_NotFoundError
             (NewAPIError statusCode (errorString raw))) = inl err)
  \/ (statusCode = 500%Z
      /\ exists err,
           InternalServerError_Decode raw
             (InternalServerError_with_APIError new_InternalServerError
                (NewAPIError statusCode (errorString raw))) = inl err) ->
  errorDecoder statusCode (inr raw) = ErrAPIError (NewAPIError statusCode (errorString raw)).
Proof.
  intros [[-> [err Herr]] | [-> [err Herr]]]; unfold errorDecoder; simpl; now rewrite Herr.
Qed.

(** What the decoder returns on a body that was read, by category. *)
Lemma errorDecoder_category (statusCode : Z) (raw : string) :
  search_category (errorDecoder statusCode (inr raw)) =
    let apiError := NewAPIError statusCode (errorString raw) in
    if (statusCode =? 404)%Z then
      match NotFoundError_Decode raw (NotFoundError_with_APIError new_NotFoundError apiError) with
      | inr _ => NotFound
      | inl _ => GenericAPI
      end
    else if (statusCode =? 500)%Z then
      match InternalServerError_Decode raw
              (InternalServerError_with_APIError new_InternalServerError apiError) with
      | inr _ => InternalServer
      | inl _ => GenericAPI
      end
    else GenericAPI.
Proof.
  unfold errorDecoder. cbv zeta.
  destruct (statusCode =? 404)%Z; [now destruct (NotFoundError_Decode _ _)|].
  destruct (statusCode =? 500)%Z; [now destruct (InternalServerError_Decode _ _)|].
  reflexivity.
Qed.

(** *** The attempts of the executor *)

Lemma response_ends_attempts_nil : response_ends_attempts [].
Proof. intros i req resp H. discriminate. Qed.

Lemma attempts_within_none {A} (n : nat) (m : HM A) :
  preserves same_trace m -> attempts_within n m.
Proof.
  intros Hm st. exists []. rewrite app_nil_r. split; [apply Hm|].
  split; [simpl; lia | apply response_ends_attempts_nil].
Qed.

Lemma attempts_within_after {A B} (n : nat) (m : HM A) (k : A -> HM B) :
  preserves same_trace m -> (forall a, attempts_within n (k a)) ->
  attempts_within n (bind m k).
Proof.
  intros Hm Hk st. unfold bind. specialize (Hm st). unfold same_trace in Hm.
  destruct (m st) as [[a|] st1]; simpl in *.
  - destruct (Hk a st1) as (new & Htr & Hlen & Hlast). exists new. now rewrite Htr, Hm.
  - exists []. rewrite app_nil_r. split; [assumption|].
    split; [simpl; lia | apply response_ends_attempts_nil].
Qed.

Lemma attempts_within_before {A B} (n : nat) (m : HM A) (k : A -> HM B) :
  attempts_within n m -> (forall a, preserves same_trace (k a)) ->
  attempts_within n (bind m k).
Proof.
  intros Hm Hk st. unfold bind. destruct (Hm st) as (new & Htr & Hlen & Hlast).
  destruct (m st) as [[a|] st1]; simpl in *.
  - exists new. specialize (Hk a st1). unfold same_trace in Hk. now rewrite Hk.
  - now exists new.
Qed.

(** The loop makes at most [n] attempts and stops at the first response. *)
Lemma attempt_within (n : nat) (client : option HttpClient) (req : Request) :
  forall last, attempts_within n (attempt n client req last).
Proof.
  induction n as [|n IH]; intros last st.
  - exists []. simpl. rewrite app_nil_r. split; [reflexivity|].
    split; [lia | apply response_ends_attempts_nil].
  - simpl. unfold bind, Do. destruct client as [c|].
    2:{ exists []. simpl. rewrite app_nil_r. split; [reflexivity|].
        split; [lia | apply response_ends_attempts_nil]. }
    destruct (RoundTrip c req (world st)) as [[err|resp] w].
    + destruct (IH err (mkState w (trace st ++ [(req, inl err)]) (stdout st) (heap st)))
        as (new & Htr & Hlen & Hlast).
      exists ((req, inl err) :: new). rewrite Htr. simpl.
      split; [now rewrite <- app_assoc|]. split; [lia|].
      intros [|i] rq rs Hi; simpl in Hi; [discriminate|].
      simpl. f_equal. eapply Hlast, Hi.
    + exists [(req, inr resp)]. simpl. split; [reflexivity|]. split; [lia|].
      intros [|i] rq rs Hi; simpl in Hi; [reflexivity | discriminate].
Qed.

Lemma Call_within (caller0 : Caller) (params : CallParams) :
  attempts_within (configuredMaxAttempts caller0 params) (Call caller0 params).
Proof.
  unfold Call. apply attempts_within_after; [frame|]. intros headers.
  destruct (Marshal _) as [err|body]; [apply attempts_within_none; frame|].
  cbv zeta. apply attempts_within_before; [apply attempt_within|].
  intros r. frame.
Qed.

Lemma Get_within (c : Client) (sessionID : string) (request : option MemorySearchPayload)
    (opts : list RequestOption) :
  attempts_within
    (if (0 <? MaxAttempts (NewRequestOptions opts))%nat then MaxAttempts (NewRequestOptions opts)
     else if (0 <? Caller_MaxAttempts (caller c))%nat then Caller_MaxAttempts (caller c)
     else defaultMaxAttempts)
    (Get c sessionID request opts).
Proof.
  unfold Get. cbv zeta.
  destruct (QueryValues request) as [err|queryParams]; [apply attempts_within_none; frame|].
  apply attempts_within_after; [unfold Clone; frame|]. intros cloned.
  apply attempts_within_after; [unfold ToHeader; frame|]. intros perRequest.
  apply attempts_within_after; [unfold MergeHeaders; frame|]. intros headers.
  apply attempts_within_before; [|intros r; frame].
  apply Call_within.
Qed.

(** NewClient allocates the stored header and hands its options' HTTP
    client and attempt count to the caller. *)
Lemma NewClient_run (opts : list RequestOption) (st : HState) :
  NewClient opts st =
    (Returned {| baseURL := BaseURL (NewRequestOptions opts);
                 caller := NewCaller (HTTPClient (NewRequestOptions opts))
                             (MaxAttempts (NewRequestOptions opts));
                 header := fresh (dom (heap st)) |},
     mkState (world st) (trace st) (stdout st)
       (<[fresh (dom (heap st)) := ToHeader_value (NewRequestOptions opts)]> (heap st))).
Proof. reflexivity. Qed.

(** C3. The executor, and Get through it, makes at most the configured
    number of transport-level attempts: the per-call MaxAttempts when set,
    else the caller's, which NewClient takes from the client's options,
    else the executor's default. An attempt that got a response, whatever
    its status code, is the last one: only an attempt that failed at the
    transport level is followed by another. *)
Theorem attempts_at_most_MaxAttempts (caller0 : Caller) (params : CallParams)
    (c : Client) (sessionID : string) (request : option MemorySearchPayload)
    (clientOpts opts : list RequestOption) (st : HState) :
  (exists new,
      trace (snd (Call caller0 params st)) = trace st ++ new
      /\ length new <= configuredMaxAttempts caller0 params
      /\ response_ends_attempts new)
  /\ (exists new,
        trace (snd (Get c sessionID request opts st)) = trace st ++ new
        /\ length new <=
             (if (0 <? MaxAttempts (NewRequestOptions opts))%nat
              then MaxAttempts (NewRequestOptions opts)
              else if (0 <? Caller_MaxAttempts (caller c))%nat
                   then Caller_MaxAttempts (caller c)
                   else defaultMaxAttempts)
        /\ response_ends_attempts new)
  /\ (exists made st1 new,
        NewClient clientOpts st = (Returned made, st1)
        /\ trace st1 = trace st
        /\ trace (snd (Get made sessionID request opts st1)) = trace st1 ++ new
        /\ length new <=
             (if (0 <? MaxAttempts (NewRequestOptions opts))%nat
              then MaxAttempts (NewRequestOptions opts)
              else if (0 <? MaxAttempts (NewRequestOptions clientOpts))%nat
                   then MaxAttempts (NewRequestOptions clientOpts)
                   else defaultMaxAttempts)
        /\ response_ends_attempts new).
Proof.
  split; [apply Call_within | split; [apply Get_within|]].
  rewrite NewClient_run. eexists _, _.
  edestruct Get_within as (new & Htr & Hlen & Hlast).
  exists new. split; [reflexivity|]. split; [reflexivity|].
  split; [exact Htr|]. split; [exact Hlen | exact Hlast].
Qed.

(** *** The stored header *)

Lemma attempt_same_heap (n : nat) (client : option HttpClient) (req : Request) :
  forall last, preserves same_heap (attempt n client req last).
Proof.
  induction n as [|n IH]; intros last; simpl; frame. apply IH.
Qed.

Lemma Call_same_heap (caller0 : Caller) (params : CallParams) :
  preserves same_heap (Call caller0 params).
Proof.
  unfold Call. frame. apply attempt_same_heap.
Qed.

Lemma Clone_run (h : loc) (st : HState) :
  Clone h st =
    match heap st !! h with
    | Some v => (Returned (fresh (dom (heap st))),
                 mkState (world st) (trace st) (stdout st)
                   (<[fresh (dom (heap st)) := v]> (heap st)))
    | None => (Panicked, st)
    end.
Proof. unfold Clone, bind, deref, alloc. now destruct (heap st !! h). Qed.

Lemma MergeHeaders_run (left right : loc) (st : HState) :
  MergeHeaders left right st =
    match heap st !! left, heap st !! right with
    | Some l, Some r => (Returned left,
                         mkState (world st) (trace st) (stdout st)
                           (<[left := MergeHeaders_value l r]> (heap st)))
    | _, _ => (Panicked, st)
    end.
Proof.
  unfold MergeHeaders, bind, deref, store.
  destruct (heap st !! left) as [l|] eqn:Hl; [|reflexivity].
  destruct (heap st !! right) as [r|]; [|reflexivity].
  now rewrite Hl.
Qed.

(** A map that is new to the heap is not one of the maps the heap holds. *)
Lemma fresh_not_allocated (h : gmap loc Header) (i : loc) (x : Header) :
  h !! i = Some x -> i <> fresh (dom h).
Proof.
  intros Hi ->. apply (is_fresh (dom h)). apply elem_of_dom. eauto.
Qed.

(** Every header map the heap held before Get is held unchanged after it:
    Get only writes to the maps it has made itself. *)
Lemma Get_keeps_headers (c : Client) (sessionID : string)
    (request : option MemorySearchPayload) (opts : list RequestOption) (st : HState) :
  forall i x, heap st !! i = Some x ->
              heap (snd (Get c sessionID request opts st)) !! i = Some x.
Proof.
  intros i x Hi. unfold Get. cbv zeta.
  destruct (QueryValues request) as [err|queryParams]; [exact Hi|].
  unfold bind at 1. rewrite Clone_run.
  destruct (heap st !! header c) as [h0|]; [|exact Hi].
  set (l1 := fresh (dom (heap st))).
  unfold bind at 1. unfold ToHeader, alloc. simpl.
  set (l2 := fresh (dom (<[l1 := h0]> (heap st)))).
  assert (i <> l1) as Hl1 by (apply fresh_not_allocated with x; exact Hi).
  assert (l1 <> l2) as Hl12.
  { apply fresh_not_allocated with h0. apply lookup_insert_eq. }
  assert (i <> l2) as Hl2.
  { apply fresh_not_allocated with x. now rewrite lookup_insert_ne. }
  unfold bind at 1. rewrite MergeHeaders_run. simpl.
  rewrite lookup_insert_ne, lookup_insert_eq, lookup_insert_eq by congruence.
  unfold bind.
  match goal with |- context [Call ?k ?q ?s] =>
    pose proof (Call_same_heap k q s) as Hcall; destruct (Call k q s) as [[[res [err|]]|] st4]
  end; unfold same_heap in Hcall; simpl in *; rewrite Hcall;
  now rewrite !lookup_insert_ne by congruence.
Qed.

(** C6. Get leaves the client's stored header as it was, whatever the
    per-request options are: the map [header c] refers to has the same
    contents after the call as before, and so has every other header map
    that existed before the call: what Get writes, it writes to maps it has
    made itself, the clone among them. *)
Theorem Get_leaves_stored_header (c : Client) (sessionID : string)
    (request : option MemorySearchPayload) (opts : list RequestOption) (st : HState) :
  heap (snd (Get c sessionID request opts st)) !! header c = heap st !! header c
  /\ heap st ⊆ heap (snd (Get c sessionID request opts st)).
Proof.
  split.
  - destruct (heap st !! header c) as [h0|] eqn:H0; [now apply Get_keeps_headers|].
    unfold Get. cbv zeta.
    destruct (QueryValues request) as [err|queryParams]; [exact H0|].
    unfold bind at 1. rewrite Clone_run, H0. exact H0.
  - apply map_subseteq_spec. apply Get_keeps_headers.
Qed.

End SearchFacts.

(** C7 on a run: a 404 whose body is not JSON comes back as the generic
    error carrying the body. *)
Lemma errorDecoder_keeps_raw_body_run :
  @Search.errorDecoder Scripted.http Scripted.zepgo 404 (inr "page not found")
  = Search.ErrAPIError (Search.NewAPIError 404 (errorString "page not found")).
Proof.
  apply (@errorDecoder_keeps_raw_body Scripted.http Scripted.zepgo 404 "page not found").
  left. split; [reflexivity|].
  exists (errorString "invalid character looking for beginning of value"). reflexivity.
Defined.

(** C3 and C6 on runs. With three attempts allowed: a refused connection is
    retried, the 500 that follows is not; five refused connections make
    three attempts. The request carries the merged header, the stored one
    is as before. *)
Example Get_runs :
  length (trace (snd (@Search.Get Scripted.http Scripted.zepgo Scripted.client "s1" None [3%nat]
                        (Scripted.with_header
                           [inl Scripted.refused; inr (Scripted.response 500 "" "{}");
                            inr (Scripted.response 200 "" "[]")])))) = 2%nat
  /\ length (trace (snd (@Search.Get Scripted.http Scripted.zepgo Scripted.client "s1" None [3%nat]
                           (Scripted.with_header
                              [inl Scripted.refused; inl Scripted.refused; inl Scripted.refused;
                               inl Scripted.refused; inl Scripted.refused])))) = 3%nat
  /\ (ReqHeader ∘ fst) <$>
       trace (snd (@Search.Get Scripted.http Scripted.zepgo Scripted.client "s1" None [3%nat]
                     (Scripted.with_header [inr (Scripted.response 200 "" "[]")]))) !! 0%nat
     = Some ({[ "Authorization" := ["Api-Key k"]; "X-Request" := ["1"] ]} : Header)
  /\ heap (snd (@Search.Get Scripted.http Scripted.zepgo Scripted.client "s1" None [3%nat]
                  (Scripted.with_header [inr (Scripted.response 200 "" "[]")]))) !! 1%positive
     = Some ({[ "Authorization" := ["Api-Key k"] ]} : Header).
Proof. vm_compute. tauto. Qed.

(** ** Status codes and categories *)

Section StatusCodes.
Context {http : HTTP} {zepgo : Search.Zepgo}.

(** What HandleRequest does once the request got a response. *)
Lemma HandleRequest_on_response (z : loc) (c : Legacy.DefaultZepClient) (hc : HttpClient)
    (req : Request) (msg : string) (resp : Response) (w : World)
    (st : @State http Legacy.DefaultZepClient Legacy.printed) :
  heap st !! z = Some c -> Legacy.Client c = Some hc ->
  RoundTrip hc req (world st) = (inr resp, w) ->
  Legacy.HandleRequest (Some z) (Some req) msg st =
    (Returned
       (if (StatusCode resp =? 200)%Z then (Some resp, None)
        else if (StatusCode resp =? 404)%Z then (None, Some (Legacy.NotFoundError msg))
        else if (StatusCode resp =? 401)%Z
             then (None, Some (Legacy.AuthenticationError "Authentication failed."))
             else (None, Some (Legacy.APIError
                                 ("Got an unexpected status code: " +:+ itoa (StatusCode resp))))),
     mkState w (trace st ++ [(req, inr resp)]) (stdout st) (heap st)).
Proof.
  intros Hz Hc Hrt. unfold Legacy.HandleRequest, bind, deref, Do. rewrite Hz, Hc, Hrt.
  destruct (StatusCode resp =? 200)%Z; [reflexivity|].
  destruct (StatusCode resp =? 404)%Z; [reflexivity|].
  destruct (StatusCode resp =? 401)%Z; reflexivity.
Qed.

(** C1, amended. The category of a result follows from the status code in
    this way. HandleRequest: 200 yields the response itself, with a nil
    error, which is success; 404 yields no response and a not-found error
    with the caller's message, 401 no response and an authentication error,
    every other status, 500 included, no response and a generic API error
    naming the status. The error decoder of Get, on a body that was read:
    404 is a not-found error and 500 an internal-server error when the body
    decodes into that type; a body that does not decode, and every other
    status, 401 included, is a generic API error. *)
Theorem category_by_status_code :
  (forall (z : loc) (c : Legacy.DefaultZepClient) (hc : HttpClient) (req : Request)
          (msg : string) (resp : Response) (w : World)
          (st : @State http Legacy.DefaultZepClient Legacy.printed),
      heap st !! z = Some c -> Legacy.Client c = Some hc ->
      RoundTrip hc req (world st) = (inr resp, w) ->
      exists result,
        fst (Legacy.HandleRequest (Some z) (Some req) msg st) = Returned result
        /\ result =
             (if (StatusCode resp =? 200)%Z then (Some resp, None)
              else if (StatusCode resp =? 404)%Z then (None, Some (Legacy.NotFoundError msg))
              else if (StatusCode resp =? 401)%Z
                   then (None, Some (Legacy.AuthenticationError "Authentication failed."))
                   else (None, Some (Legacy.APIError
                                       ("Got an unexpected status code: "
                                        +:+ itoa (StatusCode resp)))))
        /\ legacy_category result =
             if (StatusCode resp =? 200)%Z then Success
             else if (StatusCode resp =? 404)%Z then NotFound
             else if (StatusCode resp =? 401)%Z then AuthenticationFailure
             else GenericAPI)
  /\ (forall (statusCode : Z) (raw : string),
        search_category (Search.errorDecoder statusCode (inr raw)) =
          if (statusCode =? 404)%Z then
            match Search.NotFoundError_Decode raw
                    (Search.NotFoundError_with_APIError Search.new_NotFoundError
                       (Search.NewAPIError statusCode (errorString raw))) with
            | inr _ => NotFound
            | inl _ => GenericAPI
            end
          else if (statusCode =? 500)%Z then
            match Search.InternalServerError_Decode raw
                    (Search.InternalServerError_with_APIError Search.new_InternalServerError
                       (Search.NewAPIError statusCode (errorString raw))) with
            | inr _ => InternalServer
            | inl _ => GenericAPI
            end
          else GenericAPI).
Proof.
  split.
  - intros z c hc req msg resp w st Hz Hc Hrt.
    rewrite (HandleRequest_on_response z c hc req msg resp w st Hz Hc Hrt). simpl.
    eexists. split; [reflexivity|]. split; [reflexivity|].
    destruct (StatusCode resp =? 200)%Z; [reflexivity|].
    destruct (StatusCode resp =? 404)%Z; [reflexivity|].
    destruct (StatusCode resp =? 401)%Z; reflexivity.
  - intros statusCode raw. apply errorDecoder_category.
Qed.

End StatusCodes.

(** C1, amended, on runs: HandleRequest on a 200 and on a 401, the decoder on
    a 500 whose body decodes. *)
Lemma category_by_status_code_run :
  (exists result,
      fst (@Legacy.HandleRequest Scripted.http (Some 1%positive) (Some Scripted.request)
             "no such session"
             (Scripted.with_client [inr (Scripted.response 200 "0.16.0" "[]")])) = Returned result
      /\ result = (Some (Scripted.response 200 "0.16.0" "[]"), None)
      /\ legacy_category result = Success)
  /\ (exists result,
        fst (@Legacy.HandleRequest Scripted.http (Some 1%positive) (Some Scripted.request)
               "no such session"
               (Scripted.with_client [inr (Scripted.response 401 "0.16.0" "")])) = Returned result
        /\ result = (None, Some (Legacy.AuthenticationError "Authentication failed."))
        /\ legacy_category result = AuthenticationFailure)
  /\ @search_category Scripted.http Scripted.zepgo
       (@Search.errorDecoder Scripted.http Scripted.zepgo 500 (inr "{}")) = InternalServer.
Proof.
  split; [|split].
  - exact (proj1 (@category_by_status_code Scripted.http Scripted.zepgo) 1%positive
             Scripted.legacy_client 30%Z Scripted.request "no such session"
             (Scripted.response 200 "0.16.0" "[]") []
             (Scripted.with_client [inr (Scripted.response 200 "0.16.0" "[]")])
             eq_refl eq_refl eq_refl).
  - exact (proj1 (@category_by_status_code Scripted.http Scripted.zepgo) 1%positive
             Scripted.legacy_client 30%Z Scripted.request "no such session"
             (Scripted.response 401 "0.16.0" "") []
             (Scripted.with_client [inr (Scripted.response 401 "0.16.0" "")])
             eq_refl eq_refl eq_refl).
  - exact (proj2 (@category_by_status_code Scripted.http Scripted.zepgo) 500%Z "{}").
Defined.

(** C1 as stated fails. On a 500, HandleRequest returns the generic API
    error, not an internal-server error; on a 401, the error decoder of Get
    returns the generic API error, not an authentication error. *)
Lemma status_500_and_401_are_generic :
  (fst (@Legacy.HandleRequest Scripted.http (Some 1%positive) (Some Scripted.request)
          "no such session"
          (Scripted.with_client [inr (Scripted.response 500 "0.16.0" "")]))
   = Returned (None, Some (Legacy.APIError "Got an unexpected status code: 500"))
   /\ legacy_category (None, Some (Legacy.APIError "Got an unexpected status code: 500"))
      <> category_by_status 500)
  /\ (@Search.errorDecoder Scripted.http Scripted.zepgo 401 (inr "{}")
      = Search.ErrAPIError (Search.NewAPIError 401 (errorString "{}"))
      /\ @search_category Scripted.http Scripted.zepgo
           (Search.ErrAPIError (Search.NewAPIError 401 (errorString "{}")))
         <> category_by_status 401).
Proof.
  split; split; try (vm_compute; reflexivity); vm_compute; discriminate.
Qed.

(** * Further properties *)

(** ** The legacy client: the health check *)

Section HealthCheck.
Import Legacy.
Context {http : HTTP} {semver : Semver}.

Abbreviation LSt := (@State http DefaultZepClient printed).

(** X1. The loop that copies the client's headers onto the health-check
    request loses nothing and adds nothing: a value stands under a key of the
    request header exactly when the client's map holds it under a key of
    that canonical form, also when several keys share one canonical form. *)
Theorem addHeaders_values (hs : gmap string string) (method url : string) (body : option string) :
  forall K v,
    (exists vs, ReqHeader (addHeaders hs (mkRequest method url ∅ body)) !! K = Some vs /\ v ∈ vs)
    <-> exists k, hs !! k = Some v /\ CanonicalMIMEHeaderKey k = K.
Proof.
  unfold addHeaders. simpl.
  apply (map_fold_weak_ind
           (fun (r : Header) (m : gmap string string) =>
              forall K v, (exists vs, r !! K = Some vs /\ v ∈ vs)
                          <-> exists k, m !! k = Some v /\ CanonicalMIMEHeaderKey k = K)).
  - intros K v. split.
    + intros (vs & Hvs & _). rewrite lookup_empty in Hvs. discriminate.
    + intros (k & Hk & _). rewrite lookup_empty in Hk. discriminate.
  - intros i x m r Hi IH K v. unfold Header_Add. cbv zeta. split.
    + intros (vs & Hvs & Hv).
      destruct (decide (CanonicalMIMEHeaderKey i = K)) as [<-|Hne].
      * rewrite lookup_insert_eq in Hvs. injection Hvs as <-.
        apply elem_of_app in Hv as [Hv|Hv].
        -- destruct (r !! CanonicalMIMEHeaderKey i) as [old|] eqn:Hold; simpl in Hv.
           ++ destruct (proj1 (IH (CanonicalMIMEHeaderKey i) v)) as (k & Hk & Hcan); [eauto|].
              exists k. split; [|exact Hcan].
              rewrite lookup_insert_ne; [exact Hk | congruence].
           ++ inversion Hv.
        -- apply list_elem_of_singleton in Hv as ->. exists i.
           split; [apply lookup_insert_eq | reflexivity].
      * rewrite lookup_insert_ne in Hvs by exact Hne.
        destruct (proj1 (IH K v)) as (k & Hk & Hcan); [eauto|].
        exists k. split; [|exact Hcan].
        rewrite lookup_insert_ne; [exact Hk | congruence].
    + intros (k & Hk & <-).
      destruct (decide (i = k)) as [->|Hne].
      * rewrite lookup_insert_eq in Hk. injection Hk as ->.
        rewrite lookup_insert_eq. eexists. split; [reflexivity|].
        apply elem_of_app. right. apply list_elem_of_singleton. reflexivity.
      * rewrite lookup_insert_ne in Hk by exact Hne.
        destruct (proj2 (IH (CanonicalMIMEHeaderKey k) v)) as (vs & Hvs & Hv); [eauto|].
        destruct (decide (CanonicalMIMEHeaderKey i = CanonicalMIMEHeaderKey k)) as [Heq|Hne'].
        -- rewrite Heq, lookup_insert_eq, Hvs. simpl. eexists. split; [reflexivity|].
           apply elem_of_app. now left.
        -- rewrite lookup_insert_ne by exact Hne'. eauto.
Qed.

(** http.NewRequest, when it accepts its arguments, returns the request made
    of them, with an empty header. *)
Lemma NewRequest_accepts (method url : string) (body : option string) (req : Request) :
  NewRequest method url body = inr req -> req = mkRequest method url ∅ body.
Proof.
  unfold NewRequest. destruct (NewRequest_rejects method url); [discriminate|].
  now intros [= <-].
Qed.

(** What CheckServer can do to the world, the trace and standard output. *)
Lemma CheckServer_footprint (z : option loc) (st : LSt) :
  snd (CheckServer z st) = st
  \/ exists l c hc r w,
       z = Some l /\ heap st !! l = Some c /\ Client c = Some hc
       /\ RoundTrip hc (mkRequest "GET" (ServerURL c +:+ "/healthz")
                          (map_fold (fun key value h => Header_Add h key value) ∅ (Headers c))
                          None) (world st) = (r, w)
       /\ world (snd (CheckServer z st)) = w
       /\ trace (snd (CheckServer z st)) =
            trace st ++ [(mkRequest "GET" (ServerURL c +:+ "/healthz")
                            (map_fold (fun key value h => Header_Add h key value) ∅ (Headers c))
                            None, r)]
       /\ (stdout (snd (CheckServer z st)) = stdout st
           \/ stdout (snd (CheckServer z st)) =
                stdout st ++ [PrintString ("Warning: " +:+ MinServerWarningMsg)]).
Proof.
  unfold CheckServer, bind, deref.
  destruct z as [l|]; [|now left].
  destruct (heap st !! l) as [c|] eqn:Hl; [|now left]. cbv zeta.
  destruct (NewRequest _ _ _) as [err|req] eqn:Hreq; [now left|].
  apply NewRequest_accepts in Hreq as ->. unfold addHeaders. simpl.
  unfold Do. destruct (Client c) as [hc|] eqn:Hc; [|now left].
  destruct (RoundTrip hc _ (world st)) as [r w] eqn:Hrt.
  right. exists l, c, hc, r, w. split; [reflexivity|]. split; [exact Hl|].
  split; [exact Hc|]. split; [exact Hrt|].
  destruct r as [err|resp]; [simpl; auto|].
  destruct (isVersionGreaterOrEqual _) as [meets [err|]]; [simpl; auto|].
  destruct meets; simpl; destruct (StatusCode resp =? 200)%Z; simpl; auto.
Qed.

(** X2. CheckServer calls Client.Do at most once and never calls it again:
    either it leaves the whole state as it is (it panicked on a nil pointer,
    or http.NewRequest rejected the URL), or it has made exactly one call of
    Client.Do, passing a GET of ServerURL followed by /healthz, without
    body, with the client's headers; it then has changed no client and
    printed nothing except, possibly, the version warning. *)
Theorem CheckServer_calls_Do_at_most_once (z : option loc) (st : LSt) :
  snd (CheckServer z st) = st
  \/ exists l c r,
       z = Some l /\ heap st !! l = Some c
       /\ trace (snd (CheckServer z st)) =
            trace st ++ [(mkRequest "GET" (ServerURL c +:+ "/healthz")
                            (map_fold (fun key value h => Header_Add h key value) ∅ (Headers c))
                            None, r)]
       /\ heap (snd (CheckServer z st)) = heap st
       /\ (stdout (snd (CheckServer z st)) = stdout st
           \/ stdout (snd (CheckServer z st)) =
                stdout st ++ [PrintString ("Warning: " +:+ MinServerWarningMsg)]).
Proof.
  destruct (CheckServer_footprint z st)
    as [Hsame | (l & c & hc & r & w & Hz & Hl & _ & _ & _ & Htr & Hout)].
  - now left.
  - right. exists l, c, r. split; [exact Hz|]. split; [exact Hl|]. split; [exact Htr|].
    split; [apply CheckServer_same_heap | exact Hout].
Qed.

(** X3. When Client.Do returns an error, CheckServer returns that very error
    value, without wrapping it in a ZepError, after that one call, and
    prints nothing. *)
Theorem CheckServer_returns_Do_error (z : loc) (c : DefaultZepClient) (hc : HttpClient)
    (req : Request) (err : lib_error) (w : World) (st : LSt) :
  heap st !! z = Some c -> Client c = Some hc ->
  NewRequest "GET" (ServerURL c +:+ "/healthz") None = inr req ->
  RoundTrip hc (addHeaders (Headers c) req) (world st) = (inl err, w) ->
  CheckServer (Some z) st =
    (Returned (Some (External err)),
     mkState w (trace st ++ [(addHeaders (Headers c) req, inl err)]) (stdout st) (heap st)).
Proof.
  intros Hz Hc Hreq Hrt. unfold CheckServer, bind, deref. rewrite Hz. cbv zeta.
  rewrite Hreq. unfold Do. now rewrite Hc, Hrt.
Qed.

(** X4. When the health check got a response, CheckServer returns nil
    exactly when the status is 200 and the version check raised no error: a
    version below the minimum passes, a version header that cannot be read
    fails even with status 200. The warning is printed exactly when the
    version check answered false without error, whatever the status. *)
Theorem CheckServer_nil_iff (z : loc) (c : DefaultZepClient) (hc : HttpClient)
    (req : Request) (resp : Response) (w : World) (st : LSt) :
  heap st !! z = Some c -> Client c = Some hc ->
  NewRequest "GET" (ServerURL c +:+ "/healthz") None = inr req ->
  RoundTrip hc (addHeaders (Headers c) req) (world st) = (inr resp, w) ->
  (fst (CheckServer (Some z) st) = Returned None
   <-> StatusCode resp = 200%Z
       /\ snd (isVersionGreaterOrEqual (Header_Get (RespHeader resp) "X-Zep-Version")) = None)
  /\ stdout (snd (CheckServer (Some z) st)) =
       stdout st ++
       match isVersionGreaterOrEqual (Header_Get (RespHeader resp) "X-Zep-Version") with
       | (false, None) => [PrintString ("Warning: " +:+ MinServerWarningMsg)]
       | _ => []
       end.
Proof.
  intros Hz Hc Hreq Hrt.
  rewrite (CheckServer_on_response z c hc req resp w st Hz Hc Hreq Hrt). cbv zeta.
  destruct (isVersionGreaterOrEqual _) as [meets [err|]];
    destruct meets; simpl; rewrite ?app_nil_r;
    (split; [|reflexivity]).
  - split; [discriminate | intros [_ H]; discriminate].
  - split; [discriminate | intros [_ H]; discriminate].
  - destruct (Z.eqb_spec (StatusCode resp) 200) as [Heq|Hne]; simpl.
    + split; auto.
    + split; [discriminate | intros [H _]; contradiction].
  - destruct (Z.eqb_spec (StatusCode resp) 200) as [Heq|Hne]; simpl.
    + split; auto.
    + split; [discriminate | intros [H _]; contradiction].
Qed.

(** X5. A response without X-Zep-Version header is judged on the empty
    string: when the semver package rejects the empty string, CheckServer
    returns that error, whatever the status, and prints no warning. *)
Theorem CheckServer_missing_version_header (z : loc) (c : DefaultZepClient) (hc : HttpClient)
    (req : Request) (resp : Response) (w : World) (st : LSt)
    (k : Constraints) (err : lib_error) :
  heap st !! z = Some c -> Client c = Some hc ->
  NewRequest "GET" (ServerURL c +:+ "/healthz") None = inr req ->
  RoundTrip hc (addHeaders (Headers c) req) (world st) = (inr resp, w) ->
  RespHeader resp !! CanonicalMIMEHeaderKey "X-Zep-Version" = None ->
  NewConstraint (">= " +:+ MinServerVersion) = inr k ->
  NewVersion "" = inl err ->
  CheckServer (Some z) st =
    (Returned (Some (External err)),
     mkState w (trace st ++ [(addHeaders (Headers c) req, inr resp)]) (stdout st) (heap st)).
Proof.
  intros Hz Hc Hreq Hrt Hmissing Hk Hv.
  rewrite (CheckServer_on_response z c hc req resp w st Hz Hc Hreq Hrt). cbv zeta.
  unfold Header_Get. rewrite Hmissing.
  unfold isVersionGreaterOrEqual. now rewrite Hk, Hv.
Qed.

(** X6. With any semver package, isVersionGreaterOrEqual returns an error
    exactly when the package rejects the constraint or the version, the
    error is the package's own, and the boolean is then false; without
    error the boolean is the answer of Check. *)
Theorem isVersionGreaterOrEqual_results (version : string) :
  match isVersionGreaterOrEqual version with
  | (meets, Some (External err)) =>
      meets = false
      /\ (NewConstraint (">= " +:+ MinServerVersion) = inl err
          \/ (exists c, NewConstraint (">= " +:+ MinServerVersion) = inr c)
             /\ NewVersion version = inl err)
  | (_, Some _) => False
  | (meets, None) =>
      exists c v, NewConstraint (">= " +:+ MinServerVersion) = inr c
                  /\ NewVersion version = inr v
                  /\ meets = Check c v
  end.
Proof.
  unfold isVersionGreaterOrEqual.
  destruct (NewConstraint _) as [err|c]; [auto|].
  destruct (NewVersion version) as [err|v]; eauto 8.
Qed.

End HealthCheck.

(** X3 on a run: the connection is refused, and the error of Client.Do, with
    its text, is what CheckServer returns. *)
Lemma CheckServer_returns_Do_error_run :
  fst (@Legacy.CheckServer Scripted.http SemverModel.lib (Some 1%positive)
         (Scripted.with_client []))
  = Returned (Some (Legacy.External
                      (Scripted.refusal (mkRequest "GET" "http://localhost:8000/healthz" ∅ None))))
  /\ Error (Scripted.refusal (mkRequest "GET" "http://localhost:8000/healthz" ∅ None))
     = "Get " +:+ Scripted.quote +:+ "http://localhost:8000/healthz" +:+ Scripted.quote
       +:+ ": dial tcp 127.0.0.1:8000: connect: connection refused".
Proof.
  split; [|reflexivity].
  exact (f_equal fst
           (@CheckServer_returns_Do_error Scripted.http SemverModel.lib 1%positive
              Scripted.legacy_client 30%Z
              (mkRequest "GET" "http://localhost:8000/healthz" ∅ None)
              (Scripted.refusal (mkRequest "GET" "http://localhost:8000/healthz" ∅ None)) []
              (Scripted.with_client [])
              eq_refl eq_refl eq_refl eq_refl)).
Defined.

(** X4 on a run: a server of version 0.17.0 answering 200 passes the check
    and draws no warning. *)
Lemma CheckServer_nil_iff_run :
  fst (@Legacy.CheckServer Scripted.http SemverModel.lib (Some 1%positive)
         (Scripted.with_client [inr (Scripted.response 200 "0.17.0" "")])) = Returned None
  /\ stdout (snd (@Legacy.CheckServer Scripted.http SemverModel.lib (Some 1%positive)
                    (Scripted.with_client [inr (Scripted.response 200 "0.17.0" "")])))
     = [] ++ [].
Proof.
  pose proof (@CheckServer_nil_iff Scripted.http SemverModel.lib 1%positive
                Scripted.legacy_client 30%Z
                (mkRequest "GET" "http://localhost:8000/healthz" ∅ None)
                (Scripted.response 200 "0.17.0" "") []
                (Scripted.with_client [inr (Scripted.response 200 "0.17.0" "")])
                eq_refl eq_refl eq_refl eq_refl) as [Hnil Hout].
  split; [apply Hnil; split; reflexivity | exact Hout].
Defined.

(** X5 on a run: a 200 without version header fails the check. *)
Lemma CheckServer_missing_version_header_run :
  fst (@Legacy.CheckServer Scripted.http SemverModel.lib (Some 1%positive)
         (Scripted.with_client [inr (mkResponse 200 ∅ (inr ""))]))
  = Returned (Some (Legacy.External SemverModel.ErrInvalidSemVer)).
Proof.
  assert (RespHeader (mkResponse 200 ∅ (inr ""))
            !! @CanonicalMIMEHeaderKey Scripted.http "X-Zep-Version" = None) as Hmissing
    by (vm_compute; reflexivity).
  exact (f_equal fst
           (@CheckServer_missing_version_header Scripted.http SemverModel.lib 1%positive
              Scripted.legacy_client 30%Z
              (mkRequest "GET" "http://localhost:8000/healthz" ∅ None)
              (mkResponse 200 ∅ (inr "")) []
              (Scripted.with_client [inr (mkResponse 200 ∅ (inr ""))])
              (SemverModel.mkConstraint SemverModel.OpGe SemverModel.minimum)
              SemverModel.ErrInvalidSemVer
              eq_refl eq_refl eq_refl eq_refl Hmissing eq_refl eq_refl)).
Defined.

(** ** The legacy client: construction and requests *)

Section LegacyClient.
Import Legacy.
Context {http : HTTP} {semver : Semver}.

Abbreviation CSt := (@State http DefaultZepClient printed).

Lemma GetFullURL_run (l : loc) (c : DefaultZepClient) (endpoint : string) (st : CSt) :
  heap st !! l = Some c ->
  GetFullURL (Some l) endpoint st = (Returned (ServerURL c +:+ "//api/v1/" +:+ endpoint), st).
Proof.
  intros Hl. unfold GetFullURL, bind, deref. rewrite Hl. reflexivity.
Qed.

Lemma HandleRequest_run (l : loc) (c : DefaultZepClient) (hc : HttpClient)
    (req : Request) (msg : string) (st : CSt) :
  heap st !! l = Some c -> Client c = Some hc ->
  exists result,
    HandleRequest (Some l) (Some req) msg st =
      (Returned result,
       mkState (snd (RoundTrip hc req (world st)))
         (trace st ++ [(req, fst (RoundTrip hc req (world st)))]) (stdout st) (heap st))
    /\ forall err, fst (RoundTrip hc req (world st)) = inl err ->
                   result = (None, Some (ZepError (ServerErrorMessage +:+ ": " +:+ Error err))).
Proof.
  intros Hl Hc. unfold HandleRequest, bind, deref, Do. rewrite Hl, Hc.
  destruct (RoundTrip hc req (world st)) as [[err|resp] w]; simpl.
  - eexists. split; [reflexivity|]. now intros err' [= <-].
  - destruct (StatusCode resp =? 200)%Z; [|destruct (StatusCode resp =? 404)%Z;
      [|destruct (StatusCode resp =? 401)%Z]];
      (eexists; split; [reflexivity | discriminate]).
Qed.

(** X7. The only call of Client.Do that NewZepClient makes is the health
    check, made at most once: a GET of the trimmed URL followed by
    /healthz. The request carries the API key: the header Authorization, in
    canonical form, with the single value "Bearer " followed by the key, and
    no header at all when the key is empty. No call is made when
    http.NewRequest rejects the URL. *)
Theorem NewZepClient_health_request
    (serverURL apiKey : string) (client : option HttpClient) (st : CSt) :
  trace (snd (NewZepClient serverURL apiKey client st)) = trace st
  \/ exists r,
       trace (snd (NewZepClient serverURL apiKey client st)) =
         trace st ++
         [(mkRequest "GET" (TrimSuffix serverURL "/" +:+ "/healthz")
             (if String.eqb apiKey "" then ∅
              else {[ CanonicalMIMEHeaderKey "Authorization" := ["Bearer " +:+ apiKey] ]})
             None, r)].
Proof.
  destruct (NewZepClient_run serverURL apiKey client st) as (l & r & st2 & _ & Hcheck & Hrun).
  cbv zeta in Hcheck, Hrun. rewrite Hrun. simpl.
  match type of Hcheck with CheckServer _ ?s = _ =>
    destruct (CheckServer_footprint (Some l) s)
      as [Hsame | (l' & c & hc & r' & w & Hl' & Hc & _ & _ & _ & Htr & _)];
    rewrite Hcheck in *; simpl in *
  end.
  - left. now rewrite Hsame.
  - right. injection Hl' as <-. rewrite lookup_insert_eq in Hc. injection Hc as <-.
    simpl in Htr. exists r'. rewrite Htr.
    destruct (String.eqb apiKey ""); [now rewrite map_fold_empty|].
    rewrite map_fold_singleton. unfold Header_Add. cbv zeta.
    rewrite lookup_empty. simpl. now rewrite insert_empty.
Qed.

(** X8. When Client.Do returns an error on the health check (the server
    cannot be reached), NewZepClient still returns the client; the error
    Client.Do returned is printed, once, and nothing else is. *)
Theorem NewZepClient_server_down
    (serverURL apiKey : string) (client : option HttpClient) (st : CSt)
    (req : Request) (err : lib_error) (w : World) :
  NewRequest "GET" (TrimSuffix serverURL "/" +:+ "/healthz") None = inr req ->
  RoundTrip (default (clientWithTimeout (DefaultRequestTimeout * Second)) client)
    (addHeaders (if String.eqb apiKey "" then ∅
                 else {[ "Authorization" := "Bearer " +:+ apiKey ]}) req)
    (world st) = (inl err, w) ->
  exists l,
    fst (NewZepClient serverURL apiKey client st) = Returned (Some l)
    /\ is_Some (heap (snd (NewZepClient serverURL apiKey client st)) !! l)
    /\ stdout (snd (NewZepClient serverURL apiKey client st)) =
         stdout st ++ [PrintError (External err)]
    /\ world (snd (NewZepClient serverURL apiKey client st)) = w.
Proof.
  intros Hreq Hrt.
  destruct (NewZepClient_run serverURL apiKey client st) as (l & r & st2 & _ & Hcheck & Hrun).
  cbv zeta in Hcheck, Hrun. rewrite Hrun. simpl. exists l.
  unfold CheckServer, bind, deref in Hcheck. simpl in Hcheck.
  rewrite lookup_insert_eq in Hcheck. simpl in Hcheck.
  rewrite Hreq in Hcheck. unfold Do in Hcheck. simpl in Hcheck. rewrite Hrt in Hcheck.
  injection Hcheck as <- <-. simpl.
  split; [reflexivity|]. split; [rewrite lookup_insert_eq; eauto|]. split; reflexivity.
Qed.

(** X9. Full URLs of a client made by NewZepClient: the trimmed server URL,
    two slashes (joinPaths puts one before the base path, which begins with
    one), api/v1, a slash and the endpoint. For a server URL followed by one
    more slash they are made of the server URL itself; so, when the server
    URL does not end with a slash, giving it with a trailing slash yields
    the same full URLs as giving it without. *)
Theorem GetFullURL_of_new_client
    (serverURL apiKey : string) (client : option HttpClient) (st : CSt) :
  exists l l',
    fst (NewZepClient serverURL apiKey client st) = Returned (Some l)
    /\ fst (NewZepClient (serverURL +:+ "/") apiKey client st) = Returned (Some l')
    /\ forall endpoint,
         fst (GetFullURL (Some l) endpoint (snd (NewZepClient serverURL apiKey client st)))
         = Returned (TrimSuffix serverURL "/" +:+ "//api/v1/" +:+ endpoint)
         /\ fst (GetFullURL (Some l') endpoint
                   (snd (NewZepClient (serverURL +:+ "/") apiKey client st)))
            = Returned (serverURL +:+ "//api/v1/" +:+ endpoint)
         /\ (HasSuffix serverURL "/" = false ->
             fst (GetFullURL (Some l') endpoint
                    (snd (NewZepClient (serverURL +:+ "/") apiKey client st)))
             = fst (GetFullURL (Some l) endpoint
                      (snd (NewZepClient serverURL apiKey client st)))).
Proof.
  destruct (NewZepClient_run serverURL apiKey client st) as (l & r & st2 & _ & _ & Hrun).
  destruct (NewZepClient_run (serverURL +:+ "/") apiKey client st)
    as (l' & r' & st2' & _ & _ & Hrun').
  cbv zeta in Hrun, Hrun'. rewrite Hrun, Hrun'. simpl. exists l, l'.
  split; [reflexivity|]. split; [reflexivity|]. intros endpoint.
  erewrite !GetFullURL_run by (simpl; apply lookup_insert_eq). simpl.
  rewrite TrimSuffix_app. split; [reflexivity|]. split; [reflexivity|].
  intros Hno. now rewrite (TrimSuffix_no_suffix _ _ Hno).
Qed.

(** X10. On a client made by NewZepClient, in any later state that still
    holds the client, GetFullURL and CheckServer return, and HandleRequest
    returns for every request that is not nil: the client's http.Client is
    never nil. With a nil request HandleRequest panics. *)
Theorem new_client_never_panics
    (serverURL apiKey : string) (client : option HttpClient) (st : CSt) :
  exists l,
    fst (NewZepClient serverURL apiKey client st) = Returned (Some l)
    /\ forall later : CSt,
         heap later !! l = heap (snd (NewZepClient serverURL apiKey client st)) !! l ->
         (forall endpoint, exists url, fst (GetFullURL (Some l) endpoint later) = Returned url)
         /\ (exists err, fst (CheckServer (Some l) later) = Returned err)
         /\ (forall req msg,
               exists result,
                 fst (HandleRequest (Some l) (Some req) msg later) = Returned result)
         /\ (forall msg, fst (HandleRequest (Some l) None msg later) = Panicked).
Proof.
  destruct (NewZepClient_run serverURL apiKey client st) as (l & r & st2 & _ & _ & Hrun).
  cbv zeta in Hrun. rewrite Hrun. simpl. exists l. split; [reflexivity|].
  intros later Hl. rewrite lookup_insert_eq in Hl. split; [|split; [|split]].
  - intros endpoint. erewrite GetFullURL_run by exact Hl. eauto.
  - edestruct (CheckServer_returns l _ _ later Hl eq_refl) as (e & st' & Hrun').
    rewrite Hrun'. eauto.
  - intros req msg.
    edestruct (HandleRequest_run l _ _ req msg later Hl eq_refl) as (result & Hrun' & _).
    rewrite Hrun'. eauto.
  - intros msg. unfold HandleRequest, bind, deref. now rewrite Hl.
Qed.

(** X11. For a request that is not nil, HandleRequest makes exactly one call
    of Client.Do, passing the request as it was given (the client's headers
    are not added to it), prints nothing and changes no client; when
    Client.Do returns an error, HandleRequest returns no response and a
    ZepError whose message is the connection message, a colon and the text
    of that error. With a nil request it panics. *)
Theorem HandleRequest_calls_Do_once (l : loc) (c : DefaultZepClient) (hc : HttpClient)
    (req : Request) (msg : string) (st : CSt) :
  heap st !! l = Some c -> Client c = Some hc ->
  snd (HandleRequest (Some l) (Some req) msg st) =
    mkState (snd (RoundTrip hc req (world st)))
      (trace st ++ [(req, fst (RoundTrip hc req (world st)))]) (stdout st) (heap st)
  /\ (forall err,
        fst (RoundTrip hc req (world st)) = inl err ->
        fst (HandleRequest (Some l) (Some req) msg st) =
          Returned (None, Some (ZepError (ServerErrorMessage +:+ ": " +:+ Error err))))
  /\ fst (HandleRequest (Some l) None msg st) = Panicked.
Proof.
  intros Hl Hc. destruct (HandleRequest_run l c hc req msg st Hl Hc) as (result & Hrun & Herr).
  rewrite Hrun. simpl. split; [reflexivity|]. split.
  - intros err Hfail. now rewrite (Herr err Hfail).
  - unfold HandleRequest, bind, deref. now rewrite Hl.
Qed.

(** X12. HandleRequest returns a response or an error, never both and never
    neither; a response it returns has status 200. *)
Theorem HandleRequest_response_xor_error (z : option loc) (req : option Request)
    (msg : string) (st : CSt) :
  match fst (HandleRequest z req msg st) with
  | Returned (Some resp, None) => StatusCode resp = 200%Z
  | Returned (None, Some _) => True
  | Returned _ => False
  | Panicked => True
  end.
Proof.
  unfold HandleRequest, bind, deref, Do.
  destruct z as [l|]; [|exact I].
  destruct (heap st !! l) as [c|]; [|exact I].
  destruct req as [req|]; [|exact I].
  destruct (Client c) as [hc|]; [|exact I].
  destruct (RoundTrip hc req (world st)) as [[err|resp] w]; simpl; [exact I|].
  destruct (Z.eqb_spec (StatusCode resp) 200); [assumption|].
  destruct (StatusCode resp =? 404)%Z; [exact I|].
  destruct (StatusCode resp =? 401)%Z; exact I.
Qed.

End LegacyClient.

(** X8 on a run: nothing listens on the port; the line printed is the error
    of Client.Do. *)
Lemma NewZepClient_server_down_run :
  exists l,
    fst (@Legacy.NewZepClient Scripted.http SemverModel.lib "http://localhost:8000/" "secret" None
           (Scripted.initial [])) = Returned (Some l)
    /\ is_Some (heap (snd (@Legacy.NewZepClient Scripted.http SemverModel.lib
                             "http://localhost:8000/" "secret" None (Scripted.initial []))) !! l)
    /\ stdout (snd (@Legacy.NewZepClient Scripted.http SemverModel.lib
                      "http://localhost:8000/" "secret" None (Scripted.initial [])))
       = [] ++ [Legacy.PrintError
                  (Legacy.External
                     (Scripted.refusal
                        (@Legacy.addHeaders Scripted.http {[ "Authorization" := "Bearer secret" ]}
                           (mkRequest "GET" "http://localhost:8000/healthz" ∅ None))))]
    /\ world (snd (@Legacy.NewZepClient Scripted.http SemverModel.lib
                     "http://localhost:8000/" "secret" None (Scripted.initial []))) = [].
Proof.
  exact (@NewZepClient_server_down Scripted.http SemverModel.lib
           "http://localhost:8000/" "secret" None (Scripted.initial [])
           (mkRequest "GET" "http://localhost:8000/healthz" ∅ None)
           (Scripted.refusal
              (@Legacy.addHeaders Scripted.http {[ "Authorization" := "Bearer secret" ]}
                 (mkRequest "GET" "http://localhost:8000/healthz" ∅ None))) []
           eq_refl eq_refl).
Defined.

(** X11 on a run: the request goes out as given, and the refusal comes back
    inside the ZepError, with the text of the error of Client.Do. *)
Lemma HandleRequest_calls_Do_once_run :
  trace (snd (@Legacy.HandleRequest Scripted.http (Some 1%positive) (Some Scripted.request)
                "no such session" (Scripted.with_client [])))
  = [(Scripted.request, inl (Scripted.refusal Scripted.request))]
  /\ fst (@Legacy.HandleRequest Scripted.http (Some 1%positive) (Some Scripted.request)
            "no such session" (Scripted.with_client []))
     = Returned (None, Some (Legacy.ZepError
                               (Legacy.ServerErrorMessage +:+ ": Get " +:+ Scripted.quote
                                +:+ "http://localhost:8000/api/v1/sessions/s1/memory"
                                +:+ Scripted.quote
                                +:+ ": dial tcp 127.0.0.1:8000: connect: connection refused"))).
Proof.
  pose proof (@HandleRequest_calls_Do_once Scripted.http 1%positive Scripted.legacy_client 30%Z
                Scripted.request "no such session" (Scripted.with_client [])
                eq_refl eq_refl) as (Hstate & Hfail & _).
  split.
  - exact (f_equal trace Hstate).
  - exact (Hfail (Scripted.refusal Scripted.request) eq_refl).
Defined.

(** ** The generated search client: the error decoder *)

Section SearchResults.
Import Search.
Context {http : HTTP} {zepgo : Zepgo}.

(** X15. For every status code other than 404 and 500 the error decoder
    returns the generic APIError made of the status code and the raw body
    without looking into the body; and when the body cannot be read, it
    returns the read error, whatever the status code. *)
Theorem errorDecoder_generic :
  (forall (statusCode : Z) (raw : string),
      statusCode <> 404%Z -> statusCode <> 500%Z ->
      errorDecoder statusCode (inr raw) = ErrAPIError (NewAPIError statusCode (errorString raw)))
  /\ (forall (statusCode : Z) (err : lib_error),
        errorDecoder statusCode (inl err) = External err).
Proof.
  split; [|reflexivity].
  intros statusCode raw H404 H500. unfold errorDecoder. cbv zeta.
  apply Z.eqb_neq in H404, H500. now rewrite H404, H500.
Qed.

End SearchResults.

(** X15 on a run: a 401 with a JSON body is the generic error. *)
Lemma errorDecoder_generic_run :
  @Search.errorDecoder Scripted.http Scripted.zepgo 401 (inr "{}")
  = Search.ErrAPIError (Search.NewAPIError 401 (errorString "{}")).
Proof.
  apply (proj1 (@errorDecoder_generic Scripted.http Scripted.zepgo)); discriminate.
Defined.
